(** * guardrails.py: PII detection and extraction over a remote model

    A shallow embedding of [guardrails.py] (the inference client [query],
    the classifier [pii_detection] and the extractor [pii_extraction]) and
    of the library calls it makes ([str.strip], [str.startswith],
    [json.dumps], [json.loads], the pydantic model [PII]), followed by the
    properties of the natural-language specification. *)

From Stdlib Require Import String Ascii List Bool Arith NArith ZArith Lia.
From Equations Require Import Equations.
Import ListNotations.

Set Implicit Arguments.
Set Warnings "-register-all".

(* ===================================================================== *)
(** ** Python text *)
(* ===================================================================== *)

(** A Python [str] is a sequence of Unicode code points. *)
Definition text : Type := list N.

(** An ASCII literal of the source, as text. *)
Definition lit (s : string) : text := map N_of_ascii (list_ascii_of_string s).

Definition dq : text := [34%N].   (* the double quote character *)
Definition nl : text := [10%N].   (* the line feed written \n *)

Definition text_eqb (a b : text) : bool :=
  if list_eq_dec N.eq_dec a b then true else false.

(** [str.isspace] on one code point: the characters [str.strip()] removes
    when it is called without argument. *)
Definition isspace (c : N) : bool :=
  (((9 <=? c) && (c <=? 13)) || ((28 <=? c) && (c <=? 32))
   || (c =? 133) || (c =? 160) || (c =? 5760)
   || ((8192 <=? c) && (c <=? 8202))
   || (c =? 8232) || (c =? 8233) || (c =? 8239) || (c =? 8287)
   || (c =? 12288))%N.

Fixpoint lstrip (s : text) : text :=
  match s with
  | c :: s' => if isspace c then lstrip s' else s
  | [] => []
  end.

Definition rstrip (s : text) : text := rev (lstrip (rev s)).

(** [s.strip()] *)
Definition strip (s : text) : text := rstrip (lstrip s).

(** [s.startswith(p)] *)
Fixpoint startswith (s p : text) {struct p} : bool :=
  match p, s with
  | [], _ => true
  | _ :: _, [] => false
  | b :: p', a :: s' => (a =? b)%N && startswith s' p'
  end.

(** [str(z)] for a Python [int]. *)
Fixpoint digits_of_pos (fuel : nat) (n : N) (acc : text) : text :=
  match fuel with
  | O => acc
  | S f =>
      let acc' := (48 + n mod 10)%N :: acc in
      if (n <? 10)%N then acc' else digits_of_pos f (n / 10)%N acc'
  end.

Definition str_of_N (n : N) : text := digits_of_pos (S (N.to_nat (N.log2 n))) n [].

Definition str_of_int (z : Z) : text :=
  match z with
  | Zneg p => 45%N :: str_of_N (Npos p)
  | _ => str_of_N (Z.to_N z)
  end.

(* ===================================================================== *)
(** ** Python values *)
(* ===================================================================== *)

(** The values that [json.loads] builds and [json.dumps] prints.  A float
    is held by its [repr]; a dict has text keys and is kept in insertion
    order, one entry per key. *)
Inductive pyval : Type :=
| PNone
| PBool (b : bool)
| PInt (z : Z)
| PFloat (repr : text)
| PStr (s : text)
| PList (items : list pyval)
| PDict (entries : list (text * pyval)).

Definition pydict : Type := list (text * pyval).

(** [d.get(k)] *)
Fixpoint dict_get (k : text) (d : pydict) : option pyval :=
  match d with
  | [] => None
  | (k', v) :: d' => if text_eqb k k' then Some v else dict_get k d'
  end.

(** [d[k] = v]: an existing key keeps its place and takes the new value. *)
Fixpoint dict_set (k : text) (v : pyval) (d : pydict) : pydict :=
  match d with
  | [] => [(k, v)]
  | (k', v') :: d' =>
      if text_eqb k k' then (k, v) :: d' else (k', v') :: dict_set k v d'
  end.

Definition keys (d : pydict) : list text := map fst d.

(* ===================================================================== *)
(** ** json.loads *)
(* ===================================================================== *)

(** The decoder follows CPython's scanner: whitespace is space, tab, line
    feed and carriage return; strings are scanned in strict mode; the
    constants NaN, Infinity and -Infinity are accepted; a document is one
    value between optional whitespace.  Any failure is the one error
    [json.JSONDecodeError], here [None].  The interpreter's limits (nesting
    depth, digits of an integer) are not part of the model. *)

Definition is_json_ws (c : N) : bool :=
  ((c =? 32) || (c =? 9) || (c =? 10) || (c =? 13))%N.

Fixpoint skip_ws (s : text) : text :=
  match s with
  | c :: s' => if is_json_ws c then skip_ws s' else s
  | [] => []
  end.

Definition is_digit (c : N) : bool := ((48 <=? c) && (c <=? 57))%N.

Definition hex_digit (c : N) : option N :=
  if is_digit c then Some (c - 48)%N
  else if ((97 <=? c) && (c <=? 102))%N then Some (c - 87)%N
  else if ((65 <=? c) && (c <=? 70))%N then Some (c - 55)%N
  else None.

(** Four hexadecimal digits of a \u escape. *)
Definition hex4 (s : text) : option (N * text) :=
  match s with
  | a :: b :: c :: d :: rest =>
      match hex_digit a, hex_digit b, hex_digit c, hex_digit d with
      | Some x, Some y, Some z, Some w =>
          Some ((((x * 16 + y) * 16 + z) * 16 + w)%N, rest)
      | _, _, _, _ => None
      end
  | _ => None
  end.

Definition is_high_surrogate (c : N) : bool := ((55296 <=? c) && (c <=? 56319))%N.
Definition is_low_surrogate (c : N) : bool := ((56320 <=? c) && (c <=? 57343))%N.
Definition join_surrogates (hi lo : N) : N :=
  (65536 + (hi - 55296) * 1024 + (lo - 56320))%N.

Definition simple_escape (c : N) : option N :=
  match c with
  | 34%N => Some 34%N     (* quote *)
  | 92%N => Some 92%N     (* backslash *)
  | 47%N => Some 47%N     (* slash *)
  | 98%N => Some 8%N      (* b *)
  | 102%N => Some 12%N    (* f *)
  | 110%N => Some 10%N    (* n *)
  | 114%N => Some 13%N    (* r *)
  | 116%N => Some 9%N     (* t *)
  | _ => None
  end.

(** The body of a string, after its opening quote: the decoded text and
    what follows the closing quote.  A backslash (92) starts an escape, u
    (117) one of four hexadecimal digits; two such escapes that form a
    surrogate pair are one character; a control character is refused. *)
Fixpoint scanstring (fuel : nat) (s : text) (acc : text) : option (text * text) :=
  match fuel with
  | O => None
  | S f =>
      match s with
      | [] => None
      | c :: r =>
          if (c =? 34)%N then Some (rev acc, r)
          else if (c =? 92)%N then
            match r with
            | [] => None
            | e :: r1 =>
                if (e =? 117)%N then
                  match hex4 r1 with
                  | None => None
                  | Some (u, r2) =>
                      if is_high_surrogate u && (7 <=? length r2)
                         && startswith r2 [92; 117]%N
                      then
                        match hex4 (skipn 2 r2) with
                        | None => None
                        | Some (u2, r3) =>
                            if is_low_surrogate u2
                            then scanstring f r3 (join_surrogates u u2 :: acc)
                            else scanstring f r2 (u :: acc)
                        end
                      else scanstring f r2 (u :: acc)
                  end
                else
                  match simple_escape e with
                  | Some ch => scanstring f r1 (ch :: acc)
                  | None => None
                  end
            end
          else if (c <=? 31)%N then None
          else scanstring f r (c :: acc)
      end
  end.

Fixpoint span_digits (s : text) : text * text :=
  match s with
  | c :: r =>
      if is_digit c then let (ds, r') := span_digits r in (c :: ds, r')
      else ([], s)
  | [] => ([], [])
  end.

Definition digits_value (ds : text) : N :=
  fold_left (fun n c => (n * 10 + (c - 48))%N) ds 0%N.

(** A number is an optional minus sign (45), an integer part, an optional
    fraction after a point (46) and an optional exponent after e or E
    (101, 69) with an optional sign.  The integer part is a lone 0, or a
    nonzero digit and more. *)
Definition match_int_part (s : text) : option (text * text) :=
  match s with
  | c :: r =>
      if ((49 <=? c) && (c <=? 57))%N then
        let (ds, r') := span_digits r in Some (c :: ds, r')
      else if (c =? 48)%N then Some ([c], r)
      else None
  | [] => None
  end.

Definition match_frac (s : text) : text * text :=
  match s with
  | c :: ((d :: _) as r) =>
      if (c =? 46)%N && is_digit d
      then let (ds, r') := span_digits r in (c :: ds, r')
      else ([], s)
  | _ => ([], s)
  end.

Definition match_exp (s : text) : text * text :=
  match s with
  | e :: r =>
      if ((e =? 101) || (e =? 69))%N then
        let (sign, r1) :=
          match r with
          | c :: r' => if ((c =? 45) || (c =? 43))%N then ([c], r') else ([], r)
          | [] => ([], r)
          end in
        let (ds, r2) := span_digits r1 in
        match ds with
        | [] => ([], s)
        | _ :: _ => (e :: sign ++ ds, r2)
        end
      else ([], s)
  | [] => ([], s)
  end.

Section Decoder.

(** [float_repr l] is [repr(float(l))] for a number literal [l] with a
    fraction or an exponent: the rounding to a double and the shortest
    digits that print it are the platform's. *)
Variable float_repr : text -> text.

Definition match_number (s : text) : option (pyval * text) :=
  let (sign, s1) :=
    match s with
    | c :: r => if (c =? 45)%N then ([c], r) else ([], s)
    | [] => ([], s)
    end in
  match match_int_part s1 with
  | None => None
  | Some (ip, r1) =>
      let (fp, r2) := match_frac r1 in
      let (ep, r3) := match_exp r2 in
      match fp, ep with
      | [], [] =>
          let n := Z.of_N (digits_value ip) in
          Some (PInt (match sign with [] => n | _ => (- n)%Z end), r3)
      | _, _ => Some (PFloat (float_repr (sign ++ ip ++ fp ++ ep)), r3)
      end
  end.

(** One value at the head of [s] ([scan_once]), the members of an object
    after its opening brace, and the items of an array after its opening
    bracket.  The characters tested are the quote (34), the braces (123,
    125), the brackets (91, 93), the colon (58) and the comma (44).  The
    fuel bounds the recursion; [decode_fuel] shows that it never runs
    out. *)
Fixpoint scan_once (fuel : nat) (s : text) : option (pyval * text) :=
  match fuel with
  | O => None
  | S f =>
      match s with
      | [] => None
      | c :: r =>
          if (c =? 34)%N then
            match scanstring (length r) r [] with
            | Some (str, r') => Some (PStr str, r')
            | None => None
            end
          else if (c =? 123)%N then
            let r' := skip_ws r in
            if startswith r' [125%N] then Some (PDict [], skipn 1 r')
            else parse_members f r' []
          else if (c =? 91)%N then
            let r' := skip_ws r in
            if startswith r' [93%N] then Some (PList [], skipn 1 r')
            else parse_items f r' []
          else if startswith s (lit "null") then Some (PNone, skipn 4 s)
          else if startswith s (lit "true") then Some (PBool true, skipn 4 s)
          else if startswith s (lit "false") then Some (PBool false, skipn 5 s)
          else if startswith s (lit "NaN") then Some (PFloat (lit "nan"), skipn 3 s)
          else if startswith s (lit "Infinity") then Some (PFloat (lit "inf"), skipn 8 s)
          else if startswith s (lit "-Infinity") then Some (PFloat (lit "-inf"), skipn 9 s)
          else match_number s
      end
  end
with parse_members (fuel : nat) (s : text) (d : pydict) : option (pyval * text) :=
  match fuel with
  | O => None
  | S f =>
      if startswith s [34%N] then
        let r := skipn 1 s in
        match scanstring (length r) r [] with
        | None => None
        | Some (key, r1) =>
            let r1' := skip_ws r1 in
            if startswith r1' [58%N] then
              match scan_once f (skip_ws (skipn 1 r1')) with
              | None => None
              | Some (v, r3) =>
                  let d' := dict_set key v d in
                  let r3' := skip_ws r3 in
                  if startswith r3' [125%N] then Some (PDict d', skipn 1 r3')
                  else if startswith r3' [44%N]
                       then parse_members f (skip_ws (skipn 1 r3')) d'
                       else None
              end
            else None
        end
      else None
  end
with parse_items (fuel : nat) (s : text) (acc : list pyval) : option (pyval * text) :=
  match fuel with
  | O => None
  | S f =>
      match scan_once f s with
      | None => None
      | Some (v, r1) =>
          let r1' := skip_ws r1 in
          if startswith r1' [93%N] then Some (PList (rev (v :: acc)), skipn 1 r1')
          else if startswith r1' [44%N]
               then parse_items f (skip_ws (skipn 1 r1')) (v :: acc)
               else None
      end
  end.

(** [JSONDecoder.decode]: one value, then only whitespace. *)
Definition json_decode (s : text) : option pyval :=
  match scan_once (2 * length s + 1) (skip_ws s) with
  | Some (v, r) => match skip_ws r with [] => Some v | _ :: _ => None end
  | None => None
  end.

(** [json.loads] on a [str]: a leading byte order mark is refused. *)
Definition json_loads (s : text) : option pyval :=
  if startswith s [65279%N] then None else json_decode s.

End Decoder.

(* ===================================================================== *)
(** ** json.loads on bytes *)
(* ===================================================================== *)

(** The body that [response.get("body").read()] returns is a [bytes]
    object: a sequence of numbers below 256.  [json.loads] decodes it to
    text before it scans it: [s.decode(detect_encoding(s),
    'surrogatepass')]. *)
Definition bytes : Type := list N.

Inductive encoding : Type :=
| utf_8 | utf_8_sig | utf_16 | utf_16_be | utf_16_le | utf_32 | utf_32_be | utf_32_le.

(** [json.detect_encoding(b)]: a byte order mark decides; without one, the
    place of the zero bytes among the first four does. *)
Definition detect_encoding (b : bytes) : encoding :=
  if startswith b [0; 0; 254; 255]%N || startswith b [255; 254; 0; 0]%N then utf_32
  else if startswith b [254; 255]%N || startswith b [255; 254]%N then utf_16
  else if startswith b [239; 187; 191]%N then utf_8_sig
  else
    match b with
    | b0 :: b1 :: b2 :: b3 :: _ =>
        if (b0 =? 0)%N then (if (b1 =? 0)%N then utf_32_be else utf_16_be)
        else if (b1 =? 0)%N
             then (if (b2 =? 0)%N && (b3 =? 0)%N then utf_32_le else utf_16_le)
             else utf_8
    | [b0; b1] =>
        if (b0 =? 0)%N then utf_16_be
        else if (b1 =? 0)%N then utf_16_le
        else utf_8
    | _ => utf_8
    end.

Definition is_continuation (b : N) : bool := ((128 <=? b) && (b <=? 191))%N.

(** The lead byte and the first continuation byte of a sequence of three
    and of four bytes.  Overlong forms and code points from 1114112 on are
    refused; the surrogates (lead byte 237, then 160 to 191) are accepted,
    which is what the error handler surrogatepass adds to the strict
    decoder. *)
Definition leads3 (b0 b1 : N) : bool :=
  ((224 <=? b0) && (b0 <=? 239) && is_continuation b1
   && (negb (b0 =? 224) || (160 <=? b1)))%N.

Definition leads4 (b0 b1 : N) : bool :=
  ((240 <=? b0) && (b0 <=? 244) && is_continuation b1
   && (negb (b0 =? 240) || (144 <=? b1))
   && (negb (b0 =? 244) || (b1 <=? 143)))%N.

(** [b.decode('utf-8', 'surrogatepass')]; [None] is UnicodeDecodeError. *)
Fixpoint decode_utf8 (b : bytes) : option text :=
  match b with
  | [] => Some []
  | b0 :: r0 =>
      if (b0 <? 128)%N then option_map (cons b0) (decode_utf8 r0)
      else
        match r0 with
        | [] => None
        | b1 :: r1 =>
            if ((194 <=? b0) && (b0 <=? 223))%N && is_continuation b1
            then option_map (cons ((b0 - 192) * 64 + (b1 - 128))%N) (decode_utf8 r1)
            else
              match r1 with
              | [] => None
              | b2 :: r2 =>
                  if leads3 b0 b1 && is_continuation b2
                  then option_map
                         (cons ((b0 - 224) * 4096 + (b1 - 128) * 64 + (b2 - 128))%N)
                         (decode_utf8 r2)
                  else
                    match r2 with
                    | [] => None
                    | b3 :: r3 =>
                        if leads4 b0 b1 && is_continuation b2 && is_continuation b3
                        then option_map
                               (cons ((b0 - 240) * 262144 + (b1 - 128) * 4096
                                      + (b2 - 128) * 64 + (b3 - 128))%N)
                               (decode_utf8 r3)
                        else None
                    end
              end
        end
  end.

(** The code units of [width] bytes each, least significant byte first
    when [little]; [None] when a byte is missing at the end or a number is
    no byte. *)
Definition unit_value (little : bool) (unit : list N) : N :=
  fold_left (fun v b => (v * 256 + b)%N) (if little then rev unit else unit) 0%N.

Fixpoint code_units (fuel width : nat) (little : bool) (b : bytes) : option (list N) :=
  match fuel with
  | O => None
  | S f =>
      match b with
      | [] => Some []
      | _ :: _ =>
          if (length b <? width)%nat || negb (forallb (fun x => (x <? 256)%N) (firstn width b))
          then None
          else option_map (cons (unit_value little (firstn width b)))
                          (code_units f width little (skipn width b))
      end
  end.

(** UTF-16 with surrogatepass: a high surrogate followed by a low one is
    one character, any other unit stands for itself. *)
Fixpoint join_units (units : list N) : text :=
  match units with
  | [] => []
  | hi :: rest =>
      match rest with
      | lo :: rest' =>
          if is_high_surrogate hi && is_low_surrogate lo
          then join_surrogates hi lo :: join_units rest'
          else hi :: join_units rest
      | [] => [hi]
      end
  end.

Definition decode_utf16 (little : bool) (b : bytes) : option text :=
  option_map join_units (code_units (S (length b)) 2 little b).

(** UTF-32 with surrogatepass: every unit below 1114112 is a character. *)
Definition decode_utf32 (little : bool) (b : bytes) : option text :=
  match code_units (S (length b)) 4 little b with
  | Some units => if forallb (fun c => (c <? 1114112)%N) units then Some units else None
  | None => None
  end.

(** [b.decode(detect_encoding(b), 'surrogatepass')].  The codecs utf-16,
    utf-32 and utf-8-sig take the byte order from the mark and drop it. *)
Definition decode_bytes (b : bytes) : option text :=
  match detect_encoding b with
  | utf_8 => decode_utf8 b
  | utf_8_sig => decode_utf8 (skipn 3 b)
  | utf_16 => decode_utf16 (startswith b [255; 254]%N) (skipn 2 b)
  | utf_16_be => decode_utf16 false b
  | utf_16_le => decode_utf16 true b
  | utf_32 => decode_utf32 (startswith b [255; 254; 0; 0]%N) (skipn 4 b)
  | utf_32_be => decode_utf32 false b
  | utf_32_le => decode_utf32 true b
  end.

(* ===================================================================== *)
(** ** json.dumps *)
(* ===================================================================== *)

Definition hex_char (d : N) : N := (if d <? 10 then 48 + d else 87 + d)%N.

(** The escape \uXXXX of a code point below 65536. *)
Definition u_escape (c : N) : text :=
  [92; 117; hex_char (c / 4096 mod 16); hex_char (c / 256 mod 16);
   hex_char (c / 16 mod 16); hex_char (c mod 16)]%N.

(** One character of a string, with the default [ensure_ascii=True]. *)
Definition encode_char (c : N) : text :=
  match c with
  | 34%N => [92; 34]%N
  | 92%N => [92; 92]%N
  | 10%N => [92; 110]%N
  | 13%N => [92; 114]%N
  | 9%N => [92; 116]%N
  | 12%N => [92; 102]%N
  | 8%N => [92; 98]%N
  | _ =>
      if ((32 <=? c) && (c <=? 126))%N then [c]
      else if (c <? 65536)%N then u_escape c
      else
        let v := (c - 65536)%N in
        u_escape (55296 + (v / 1024) mod 1024) ++ u_escape (56320 + v mod 1024)
  end.

Definition encode_string (s : text) : text := dq ++ flat_map encode_char s ++ dq.

(** [", ".join(parts)] *)
Fixpoint join_comma (parts : list text) : text :=
  match parts with
  | [] => []
  | [p] => p
  | p :: ps => p ++ lit ", " ++ join_comma ps
  end.

Definition dumps_float (repr : text) : text :=
  if text_eqb repr (lit "nan") then lit "NaN"
  else if text_eqb repr (lit "inf") then lit "Infinity"
  else if text_eqb repr (lit "-inf") then lit "-Infinity"
  else repr.

(** [json.dumps(v)] with the default separators. *)
Fixpoint json_dumps (v : pyval) : text :=
  match v with
  | PNone => lit "null"
  | PBool true => lit "true"
  | PBool false => lit "false"
  | PInt z => str_of_int z
  | PFloat r => dumps_float r
  | PStr s => encode_string s
  | PList items => lit "[" ++ join_comma (map json_dumps items) ++ lit "]"
  | PDict entries =>
      lit "{"
      ++ join_comma (map (fun kv => encode_string (fst kv) ++ lit ": " ++ json_dumps (snd kv))
                         entries)
      ++ lit "}"
  end.

(* ===================================================================== *)
(** ** Exceptions and results *)
(* ===================================================================== *)

(** The exceptions that can cross the functions of the module.
    [ValidationError] is pydantic's and carries the locations that failed
    (a field name, or [__root__] for the document as a whole);
    [UnicodeDecodeError] is what [json.loads] raises on bytes that do not
    decode; [TransportError] stands for whatever [client.invoke_model]
    raises. *)
Inductive exception : Type :=
| ValidationError (locs : list text)
| TypeError
| AttributeError
| JSONDecodeError
| UnicodeDecodeError
| TransportError (detail : text).

Inductive result (A : Type) : Type :=
| Ok (a : A)
| Raise (e : exception).
Arguments Ok {A} a.
Arguments Raise {A} e.

Definition is_ValidationError (e : exception) : bool :=
  match e with ValidationError _ => true | _ => false end.

(* ===================================================================== *)
(** ** The PII model *)
(* ===================================================================== *)

(** [class PII(BaseModel)]: seven fields annotated [Optional[str]], in the
    order of the class body.  [None] is Python's [None]. *)
Record PII : Type := mkPII {
  explanation : option text;
  name : option text;
  number : option text;
  email : option text;
  address : option text;
  social_security_number : option text;
  credit_card_number : option text
}.

Definition PII_fields : list text :=
  [lit "explanation"; lit "name"; lit "number"; lit "email"; lit "address";
   lit "social_security_number"; lit "credit_card_number"].

Definition pyval_of_field (f : option text) : pyval :=
  match f with Some s => PStr s | None => PNone end.

(** [record.dict()]: one entry per field, in field order. *)
Definition PII_dict (p : PII) : pydict :=
  [(lit "explanation", pyval_of_field (explanation p));
   (lit "name", pyval_of_field (name p));
   (lit "number", pyval_of_field (number p));
   (lit "email", pyval_of_field (email p));
   (lit "address", pyval_of_field (address p));
   (lit "social_security_number", pyval_of_field (social_security_number p));
   (lit "credit_card_number", pyval_of_field (credit_card_number p))].

(** *** Validation, as pydantic does it for this class

    The source uses the [parse_raw] / [dict] interface of [BaseModel].
    Under it a field annotated [Optional[str]] without a default is not
    required and defaults to [None]; a value for a [str] field may be a
    string, or a number or boolean, which is converted with [str()];
    keys that name no field are ignored. *)

Definition str_validator (v : pyval) : option text :=
  match v with
  | PStr s => Some s
  | PInt z => Some (str_of_int z)
  | PBool b => Some (lit (if b then "True" else "False"))
  | PFloat r => Some r
  | _ => None
  end.

(** One field against the input data: its value, or the failure. *)
Definition validate_field (data : pydict) (field : text) : option (option text) :=
  match dict_get field data with
  | None => Some None                    (* missing: the default *)
  | Some PNone => Some None              (* null is allowed *)
  | Some v =>
      match str_validator v with
      | Some s => Some (Some s)
      | None => None
      end
  end.

Definition failed_fields (data : pydict) : list text :=
  filter (fun f => match validate_field data f with None => true | Some _ => false end)
         PII_fields.

Definition field_value (data : pydict) (field : text) : option text :=
  match validate_field data field with
  | Some v => v
  | None => None
  end.

(** The constructor of [PII] on keyword data: every field is validated
    and the failures are raised together. *)
Definition PII_init (data : pydict) : result PII :=
  match failed_fields data with
  | [] =>
      Ok {| explanation := field_value data (lit "explanation");
            name := field_value data (lit "name");
            number := field_value data (lit "number");
            email := field_value data (lit "email");
            address := field_value data (lit "address");
            social_security_number := field_value data (lit "social_security_number");
            credit_card_number := field_value data (lit "credit_card_number") |}
  | locs => Raise (ValidationError locs)
  end.

Definition root_error {A : Type} : result A := Raise (ValidationError [lit "__root__"]).

(** [dict(obj)] for a decoded value that is not a dict: the pairs it
    yields (a key that is not a string is kept as [None]), or no result
    when Python raises [TypeError] or [ValueError]. *)
Definition pair_of_item (item : pyval) : option (option text * pyval) :=
  match item with
  | PList [PStr k; v] => Some (Some k, v)
  | PList [PList _; _] | PList [PDict _; _] => None      (* unhashable key *)
  | PList [_; v] => Some (None, v)
  | PStr [a; b] => Some (Some [a], PStr [b])
  | PDict [(k1, _); (k2, _)] => Some (Some k1, PStr k2)
  | _ => None
  end.

Fixpoint pairs_of_items (items : list pyval) : option (list (option text * pyval)) :=
  match items with
  | [] => Some []
  | item :: rest =>
      match pair_of_item item, pairs_of_items rest with
      | Some p, Some ps => Some (p :: ps)
      | _, _ => None
      end
  end.

(** [PII.parse_obj(obj)] *)
Definition PII_parse_obj (obj : pyval) : result PII :=
  match obj with
  | PDict data => PII_init data
  | PList items =>
      match pairs_of_items items with
      | None => root_error
      | Some pairs =>
          if forallb (fun p => match fst p with Some _ => true | None => false end) pairs
          then PII_init (fold_left
                           (fun d p => match fst p with
                                       | Some k => dict_set k (snd p) d
                                       | None => d
                                       end) pairs [])
          else Raise TypeError            (* keywords must be strings *)
      end
  | PStr [] => PII_init []
  | _ => root_error
  end.

Section Model.

Variable float_repr : text -> text.

(** [PII.parse_raw(b)]: a decoding failure, or an argument that is not
    text, is reported as a validation error of the document. *)
Definition PII_parse_raw (b : pyval) : result PII :=
  match b with
  | PStr s =>
      match json_loads float_repr s with
      | Some obj => PII_parse_obj obj
      | None => root_error
      end
  | _ => root_error
  end.

End Model.

(* ===================================================================== *)
(** ** The world: the remote endpoint, the clock and the console *)
(* ===================================================================== *)

(** The arguments of one [client.invoke_model] call. *)
Record request : Type := mkRequest {
  req_body : text;
  req_modelId : text;
  req_accept : text;
  req_contentType : text
}.

(** What the endpoint does with a call: it answers with a body (the bytes
    that [response.get("body").read()] returns) or the call raises. *)
Inductive reply : Type :=
| Body (b : bytes)
| Fails (detail : text).

(** What the program does to its environment, in order. *)
Inductive event : Type :=
| Invoke (r : request)                    (* one outbound remote call *)
| Sleep (seconds : Z)                     (* await asyncio.sleep(seconds) *)
| Print (fmt : text) (e : exception).     (* print(f"...{e}") *)

Record world : Type := mkWorld {
  calls : nat;              (* remote calls made so far *)
  trace : list event        (* everything done so far, oldest first *)
}.

(** A computation runs in a world, and returns or raises. *)
Definition M (A : Type) : Type := world -> result A * world.

Definition ret {A : Type} (a : A) : M A := fun w => (Ok a, w).

Definition raise {A : Type} (e : exception) : M A := fun w => (Raise e, w).

Definition bind {A B : Type} (c : M A) (k : A -> M B) : M B :=
  fun w =>
    match c w with
    | (Ok a, w') => k a w'
    | (Raise e, w') => (Raise e, w')
    end.

Declare Scope py_scope.
Delimit Scope py_scope with py.
Notation "x <- c ;; k" := (bind c (fun x => k))
  (at level 61, c at next level, right associativity) : py_scope.
Notation "c ;;; k" := (bind c (fun _ => k))
  (at level 61, right associativity) : py_scope.

Definition lift {A : Type} (r : result A) : M A := fun w => (r, w).

Definition emit (e : event) : M unit :=
  fun w => (Ok tt, {| calls := calls w; trace := trace w ++ [e] |}).

Definition sleep (seconds : Z) : M unit := emit (Sleep seconds).

Definition print (fmt : text) (e : exception) : M unit := emit (Print fmt e).

(** The events of a run that are delays, and those that are remote calls. *)
Definition delays (t : list event) : list Z :=
  flat_map (fun e => match e with Sleep s => [s] | _ => [] end) t.

Definition requests (t : list event) : list request :=
  flat_map (fun e => match e with Invoke r => [r] | _ => [] end) t.

(* ===================================================================== *)
(** ** guardrails.py *)
(* ===================================================================== *)

Definition MODEL : text := lit "anthropic.claude-v1".
Definition accept : text := lit "application/json".
Definition contentType : text := lit "application/json".

Definition indent (n : nat) : text := repeat 32%N n.

(** The instruction of [pii_detection] (the triple-quoted literal). *)
Definition detection_prompt : text :=
  nl
  ++ indent 12 ++ lit "Human: You can only respond with the word " ++ dq ++ lit "True" ++ dq ++ lit " or " ++ dq ++ lit "False" ++ dq ++ lit ", where your answer indicates whether the text in the user's message contains PII." ++ nl
  ++ indent 12 ++ lit "Do not explain your answer, and do not use punctuation." ++ nl
  ++ indent 12 ++ lit "Your task is to identify whether the text extracted from your company files" ++ nl
  ++ indent 12 ++ lit "contains sensitive PII information that should not be shared with the broader company. Here are some things to look out for:" ++ nl
  ++ indent 12 ++ lit "- An email address that identifies a specific person in either the local-part or the domain" ++ nl
  ++ indent 12 ++ lit "- The postal address of a private residence (must include at least a street name)" ++ nl
  ++ indent 12 ++ lit "- The postal address of a public place (must include either a street name or business name)" ++ nl
  ++ indent 12 ++ lit "- Notes about hiring decisions with mentioned names of candidates. The user will send a document for you to analyze." ++ nl
  ++ indent 12 ++ lit "- A phone number that identifies a specific person" ++ nl
  ++ indent 12 ++ lit "- A name that identifies a specific person " ++ nl
  ++ nl
  ++ nl
  ++ indent 12.

(** The instruction of [pii_extraction] (the triple-quoted literal). *)
Definition extraction_prompt : text :=
  nl
  ++ indent 4 ++ lit "Human: Your job is to extract PII information from text. We will load the output as a JSON object so don't respond with anything but the JSON object. Your response should be in the following format:" ++ nl
  ++ indent 4 ++ lit "AI:" ++ nl
  ++ indent 4 ++ lit "```" ++ nl
  ++ indent 4 ++ lit "{" ++ nl
  ++ indent 8 ++ dq ++ lit "name" ++ dq ++ lit ": " ++ dq ++ lit "The name of the person" ++ dq ++ lit "," ++ nl
  ++ indent 8 ++ dq ++ lit "number" ++ dq ++ lit ": " ++ dq ++ lit "The phone number of the person" ++ dq ++ lit "," ++ nl
  ++ indent 8 ++ dq ++ lit "email" ++ dq ++ lit ": " ++ dq ++ lit "The email of the person" ++ dq ++ lit "," ++ nl
  ++ indent 8 ++ dq ++ lit "address" ++ dq ++ lit ": " ++ dq ++ lit "The address of the person" ++ dq ++ lit "," ++ nl
  ++ indent 8 ++ dq ++ lit "social_security_number" ++ dq ++ lit ": " ++ dq ++ lit "The social security number of the person" ++ dq ++ lit "," ++ nl
  ++ indent 8 ++ dq ++ lit "credit_card_number" ++ dq ++ lit ": " ++ dq ++ lit "The credit card number of the person" ++ dq ++ lit "," ++ nl
  ++ indent 8 ++ dq ++ lit "explanation" ++ dq ++ lit ": " ++ dq ++ lit "Explanation of your answer" ++ dq ++ lit "," ++ nl
  ++ indent 4 ++ lit "}" ++ nl
  ++ indent 4 ++ lit "```" ++ nl
  ++ indent 4 ++ lit "Human:" ++ nl
  ++ indent 4.

(** The dict that [query] serialises. *)
Definition request_payload (prompt : text) : pyval :=
  PDict [(lit "prompt", PStr prompt);
         (lit "max_tokens_to_sample", PInt 1000);
         (lit "temperature", PFloat (lit "0.0"));
         (lit "stop_sequences", PList [PStr (lit "Human:")])].

Definition error_dict : pydict :=
  [(lit "error", PStr (lit "Max retries reached"))].

(** How many more times the loop of [pii_extraction] can be entered. *)
Definition attempts_left (retries : Z) : nat := Z.to_nat (3 - retries).

Section Guardrails.

(** The number of calls made before indexes the endpoint's answer: the
    same request may be answered differently each time. *)
Variable endpoint : nat -> request -> reply.
Variable float_repr : text -> text.

(** [client.invoke_model(...)] and the [read()] of the body. *)
Definition invoke_model (r : request) : M bytes :=
  fun w =>
    let w' := {| calls := S (calls w); trace := trace w ++ [Invoke r] |} in
    match endpoint (calls w) r with
    | Body b => (Ok b, w')
    | Fails d => (Raise (TransportError d), w')
    end.

(** What [query] makes of a body: [json.loads], which decodes the bytes
    and then scans the text, and [.get("completion")]. *)
Definition completion_of (b : bytes) : result pyval :=
  match decode_bytes b with
  | None => Raise UnicodeDecodeError
  | Some s =>
      match json_decode float_repr s with
      | None => Raise JSONDecodeError
      | Some (PDict d) =>
          Ok (match dict_get (lit "completion") d with Some v => v | None => PNone end)
      | Some _ => Raise AttributeError
      end
  end.

(** [async def query(prompt)] *)
Definition query (prompt : text) : M pyval :=
  (let body := json_dumps (request_payload prompt) in
   response <- invoke_model {| req_body := body; req_modelId := MODEL;
                               req_accept := accept;
                               req_contentType := contentType |} ;;
   lift (completion_of response))%py.

(** [async def pii_detection(sentence)] *)
Definition pii_detection (sentence : text) : M bool :=
  (let prompt := detection_prompt in
   let question := lit "Does the following sentence contain PII? " ++ sentence in
   response <- query (prompt ++ question ++ nl ++ lit "AI: ") ;;
   response <- match response with
               | PStr s => ret (strip s)
               | _ => raise AttributeError
               end ;;
   if startswith response (lit "True") then ret true else ret false)%py.

(** [PII.parse_raw], the class method that pydantic's [BaseModel] gives
    the model: it returns a record or raises.  The extractor is written
    against this interface; [PII_parse_raw] is the method itself. *)
Variable parse_raw : pyval -> result PII.

(** The body of the [try] in [pii_extraction]. *)
Definition attempt (prompt question : text) : M pydict :=
  (response <- query (prompt ++ question ++ nl ++ lit "AI: ") ;;
   parsed_response <- lift (parse_raw response) ;;
   ret (PII_dict parsed_response))%py.

(** The [while retries < 3] loop, from the values of its two variables. *)
Equations? retry_loop (prompt question : text) (retries backoff_time : Z) (w : world)
  : result pydict * world by wf (attempts_left retries) lt :=
  retry_loop prompt question retries backoff_time w with Z_lt_dec retries 3 => {
    | left _ =>
        match attempt prompt question w with
        | (Ok d, w1) => (Ok d, w1)
        | (Raise (ValidationError locs), w1) =>
            let e := ValidationError locs in
            let '(_, w2) := print (lit "Validation failed: ") e w1 in
            let retries' := (retries + 1)%Z in
            let '(_, w3) := sleep backoff_time w2 in
            (* Linear backoff of 1, 2, 3 seconds *)
            let backoff_time' := (backoff_time + 1)%Z in
            retry_loop prompt question retries' backoff_time' w3
        | (Raise e, w1) => (Raise e, w1)
        end
    | right _ => (Ok error_dict, w) }.
Proof. unfold attempts_left. lia. Qed.

(** [async def pii_extraction(sentence)] *)
Definition pii_extraction (sentence : text) : M pydict :=
  let prompt := extraction_prompt in
  let question := lit "Extract the PII from the following sentence: " ++ sentence in
  let retries := 0%Z in
  let backoff_time := 1%Z in
  retry_loop prompt question retries backoff_time.

End Guardrails.

(* ===================================================================== *)
(** ** guardrails.py: the interactive driver *)
(* ===================================================================== *)

Definition esc : text := [27%N].   (* the escape character written \033 *)

Definition ascii_lower (c : N) : N :=
  if ((65 <=? c) && (c <=? 90))%N then (c + 32)%N else c.

Definition ascii_upper (c : N) : N :=
  if ((97 <=? c) && (c <=? 122))%N then (c - 32)%N else c.

(** How the interactive session ends: the loop is left by [break], or an
    exception leaves [main], or [input] finds the input closed
    ([EOFError]). *)
Inductive ending : Type :=
| Quit
| Failed (e : exception)
| EndOfInput.

(** The console: the lines not read yet, and what was written, each piece
    with the number of events of the trace that came before it. *)
Record session : Type := mkSession {
  unread : list text;
  screen : list (nat * text);
  after : world
}.

Definition written (s : session) : list text := map snd (screen s).

Section Driver.

Variable endpoint : nat -> request -> reply.
Variable float_repr : text -> text.
Variable parse_raw : pyval -> result PII.

(** Unicode case mapping outside ASCII is the platform's: the lower case
    of the character at a position of a text (it may depend on its
    neighbours), the title case of a first character, and the [repr] of a
    list or dict. *)
Variable lower_other : text -> nat -> text.
Variable title_other : N -> text.
Variable repr_container : pyval -> text.

Fixpoint lower_from (s : text) (i : nat) (rest : text) : text :=
  match rest with
  | [] => []
  | c :: r =>
      (if (c <? 128)%N then [ascii_lower c] else lower_other s i)
      ++ lower_from s (S i) r
  end.

(** [s.lower()] *)
Definition lower (s : text) : text := lower_from s 0 s.

(** [s.capitalize()] *)
Definition capitalize (s : text) : text :=
  match s with
  | [] => []
  | c :: r =>
      (if (c <? 128)%N then [ascii_upper c] else title_other c)
      ++ lower_from s 1 r
  end.

(** A value inside an f-string: [str(value)]. *)
Definition format_value (v : pyval) : text :=
  match v with
  | PNone => lit "None"
  | PBool b => lit (if b then "True" else "False")
  | PInt z => str_of_int z
  | PFloat r => r
  | PStr s => s
  | PList _ | PDict _ => repr_container v
  end.

(** [print(x)], called when the trace is [t]. *)
Definition print_line (t : list event) (x : text) : list (nat * text) :=
  [(length t, x ++ nl)].

(** The lines of [for key, value in pii_info.items(): print(...)]. *)
Definition item_lines (t : list event) (pii_info : pydict) : list (nat * text) :=
  flat_map (fun kv =>
              print_line t (esc ++ lit "[93m" ++ capitalize (fst kv) ++ lit ":"
                            ++ esc ++ lit "[0m " ++ format_value (snd kv)))
           pii_info.

Definition input_prompt : text :=
  lit "Please enter a sentence to check for PII (type 'exit' to quit):" ++ nl.

Definition sentence_line (sentence : text) : text :=
  esc ++ lit "[94mSENTENCE:" ++ esc ++ lit "[0m '" ++ sentence ++ lit "'".

Definition verdict_line (contains_pii : bool) : text :=
  let pii_color := if contains_pii then esc ++ lit "[92m" else esc ++ lit "[91m" in
  esc ++ lit "[94mContains PII:" ++ esc ++ lit "[0m " ++ pii_color
  ++ lit (if contains_pii then "True" else "False") ++ esc ++ lit "[0m".

Definition extracted_header : text :=
  nl ++ esc ++ lit "[94mEXTRACTED PII:" ++ esc ++ lit "[0m".

Definition separator : text := lit "------------------------" ++ nl.

(** [async def main()]: the [while True] loop, one line of input per
    iteration. *)
Fixpoint main_loop (lines : list text) (out : list (nat * text)) (w : world)
  : ending * session :=
  match lines with
  | [] =>
      (EndOfInput,
       {| unread := []; screen := out ++ [(length (trace w), input_prompt)];
          after := w |})
  | sentence :: rest =>
      let out := out ++ [(length (trace w), input_prompt)] in
      if text_eqb (lower sentence) (lit "exit") then
        (Quit, {| unread := rest; screen := out; after := w |})
      else
        match pii_detection endpoint float_repr sentence w with
        | (Raise e, w1) =>
            (Failed e, {| unread := rest; screen := out; after := w1 |})
        | (Ok contains_pii, w1) =>
            let out := out ++ print_line (trace w1) (sentence_line sentence) in
            let out := out ++ print_line (trace w1) (verdict_line contains_pii) in
            if contains_pii then
              match pii_extraction endpoint float_repr parse_raw sentence w1 with
              | (Raise e, w2) =>
                  (Failed e, {| unread := rest; screen := out; after := w2 |})
              | (Ok pii_info, w2) =>
                  let out := out ++ print_line (trace w2) extracted_header in
                  let out := out ++ item_lines (trace w2) pii_info in
                  let out := out ++ print_line (trace w2) separator in
                  main_loop rest out w2
              end
            else
              let out := out ++ print_line (trace w1) separator in
              main_loop rest out w1
        end
  end.

Definition main (lines : list text) (w : world) : ending * session :=
  main_loop lines [] w.

End Driver.


(* ===================================================================== *)
(** ** The vocabulary of the specification *)
(* ===================================================================== *)

(** The request that [query] sends for a prompt. *)
Definition request_of (prompt : text) : request :=
  {| req_body := json_dumps (request_payload prompt);
     req_modelId := MODEL;
     req_accept := accept;
     req_contentType := contentType |}.

(** The request of every attempt of [pii_extraction] on a sentence, and
    the one of [pii_detection]. *)
Definition extraction_request (sentence : text) : request :=
  request_of (extraction_prompt
              ++ (lit "Extract the PII from the following sentence: " ++ sentence)
              ++ nl ++ lit "AI: ").

Definition detection_request (sentence : text) : request :=
  request_of (detection_prompt
              ++ (lit "Does the following sentence contain PII? " ++ sentence)
              ++ nl ++ lit "AI: ").

(** The world after one more remote call, and after the handler of a
    validation failure has printed and slept. *)
Definition after_call (r : request) (w : world) : world :=
  {| calls := S (calls w); trace := trace w ++ [Invoke r] |}.

Definition failure_fmt : text := lit "Validation failed: ".

Definition after_handler (locs : list text) (backoff_time : Z) (w : world) : world :=
  {| calls := calls w;
     trace := trace w ++ [Print failure_fmt (ValidationError locs); Sleep backoff_time] |}.

(** The events of consecutive failed attempts: a call, the message, the
    delay, with the delay growing by one second each time. *)
Fixpoint failed_rounds (r : request) (backoff_time : Z) (failures : list (list text))
  : list event :=
  match failures with
  | [] => []
  | locs :: rest =>
      [Invoke r; Print failure_fmt (ValidationError locs); Sleep backoff_time]
      ++ failed_rounds r (backoff_time + 1) rest
  end.

Section Vocabulary.

Variable endpoint : nat -> request -> reply.
Variable float_repr : text -> text.
Variable parse_raw : pyval -> result PII.

(** The call numbered [k] with request [r] is answered, and [query] makes
    the completion [c] of the answer. *)
Definition responds (k : nat) (r : request) (c : pyval) : Prop :=
  exists b, endpoint k r = Body b /\ completion_of float_repr b = Ok c.

(** The response to call [k] fails schema validation at [locs]. *)
Definition fails_validation (k : nat) (r : request) (locs : list text) : Prop :=
  exists c, responds k r c /\ parse_raw c = Raise (ValidationError locs).

(** The response to call [k] is schema-valid and parses to [p]. *)
Definition validates (k : nat) (r : request) (p : PII) : Prop :=
  exists c, responds k r c /\ parse_raw c = Ok p.

(** The remote call [k] raises. *)
Definition transport_fails (k : nat) (r : request) (detail : text) : Prop :=
  endpoint k r = Fails detail.

(** The calls numbered from [k] on fail validation, one per entry. *)
Fixpoint all_fail (k : nat) (r : request) (failures : list (list text)) : Prop :=
  match failures with
  | [] => True
  | locs :: rest => fails_validation k r locs /\ all_fail (S k) r rest
  end.

(** The attempt made as call [k] raises [e], which is not a validation
    error: the remote call raises, or its answer does not decode to a
    JSON object, or [parse_raw] raises something else. *)
Definition raises_error (k : nat) (r : request) (e : exception) : Prop :=
  is_ValidationError e = false /\
  ((exists d, endpoint k r = Fails d /\ e = TransportError d)
   \/ (exists b, endpoint k r = Body b /\ completion_of float_repr b = Raise e)
   \/ (exists c, responds k r c /\ parse_raw c = Raise e)).

End Vocabulary.

(** A JSON document written with apostrophes where JSON has double
    quotes. *)
Definition json_text (s : string) : text :=
  map (fun c => if (c =? 39)%N then 34%N else c) (lit s).

(* ===================================================================== *)
(** ** Scenarios *)
(* ===================================================================== *)

(** The JSON text of the specification's example. *)
Definition email_example : text :=
  json_text "{'name': null, 'number': null, 'email': 'a@b.com', 'address': null, 'social_security_number': null, 'credit_card_number': null, 'explanation': 'contains email'}".

(** In the examples no answer holds a number with a fraction, and the
    rendering of floats is never asked for. *)
Definition literal_repr (l : text) : text := l.

(** The body of an answer with the given completion: the JSON text as
    [json.dumps] writes it, in ASCII, one byte per character. *)
Definition completion_body (completion : text) : text :=
  json_dumps (PDict [(lit "completion", PStr completion)]).

(** An endpoint whose completion is always the given text. *)
Definition answering (completion : text) : nat -> request -> reply :=
  fun _ _ => Body (completion_body completion).

(** A world in which nothing has happened yet. *)
Definition fresh : world := {| calls := 0; trace := [] |}.

(** An endpoint that follows a script, one entry per call, and is out of
    reach once the script is over. *)
Definition scripted (script : list reply) : nat -> request -> reply :=
  fun k _ => nth k script (Fails (lit "EndpointConnectionError")).

Definition ssn_sentence : text := lit "My SSN is 123-45-6789".
Definition refusal : text := lit "Sorry, I cannot help with that.".
Definition root : list text := [lit "__root__"].

Definition email_record : PII :=
  {| explanation := Some (lit "contains email");
     name := None; number := None;
     email := Some (lit "a@b.com");
     address := None; social_security_number := None;
     credit_card_number := None |}.

(** The model refuses every time. *)
Definition refusing : nat -> request -> reply := answering refusal.

Definition refused_run : result pydict * world :=
  pii_extraction refusing literal_repr (PII_parse_raw literal_repr) ssn_sentence fresh.

(** The model refuses once and then answers with the email example. *)
Definition second_time : nat -> request -> reply :=
  scripted [Body (completion_body refusal); Body (completion_body email_example)].

Definition second_time_run : result pydict * world :=
  pii_extraction second_time literal_repr (PII_parse_raw literal_repr) ssn_sentence fresh.

(** The model refuses once and then the endpoint is out of reach. *)
Definition dropped : nat -> request -> reply :=
  scripted [Body (completion_body refusal)].

Definition dropped_run : result pydict * world :=
  pii_extraction dropped literal_repr (PII_parse_raw literal_repr) ssn_sentence fresh.

(** The endpoint is out of reach from the start. *)
Definition unreachable : nat -> request -> reply := scripted [].

Definition unreachable_run : result pydict * world :=
  pii_extraction unreachable literal_repr (PII_parse_raw literal_repr) ssn_sentence fresh.





(* ===================================================================== *)
(** ** More vocabulary *)
(* ===================================================================== *)


Definition sum_Z (l : list Z) : Z := fold_right Z.add 0%Z l.

(** An endpoint whose answers are JSON objects without the key
    completion. *)
Definition silent : nat -> request -> reply :=
  fun _ _ => Body (json_text "{'stop_reason': 'max_tokens'}").

(** The requests of one turn: the classification of the sentence, then
    the attempts of the extraction. *)
Definition turn_requests (turn : text * nat) : list request :=
  detection_request (fst turn) :: repeat (extraction_request (fst turn)) (snd turn).

(** What a turn with a negative verdict writes. *)
Definition negative_turn (sentence : text) : list text :=
  [input_prompt; sentence_line sentence ++ nl; verdict_line false ++ nl;
   separator ++ nl].

(** One line of the listing of a result. *)
Definition item_line (label : string) (value : option text) : text :=
  esc ++ lit "[93m" ++ lit label ++ lit ":" ++ esc ++ lit "[0m "
  ++ match value with Some s => s | None => lit "None" end ++ nl.

(** A code point that is a Unicode scalar value: below 1114112 and not a
    surrogate.  Texts that hold surrogates are not given back by
    [json.loads] as [json.dumps] took them. *)
Definition scalar (c : N) : bool :=
  ((c <? 55296) || ((57343 <? c) && (c <? 1114112)))%N.

Definition scalar_text (s : text) : Prop := Forall (fun c => scalar c = true) s.

(** The values of a flat JSON object of texts: null, a boolean or a text
    of scalar values. *)
Definition plain (v : pyval) : Prop :=
  match v with
  | PNone | PBool _ => True
  | PStr s => scalar_text s
  | _ => False
  end.

Definition plain_entry (kv : text * pyval) : Prop :=
  scalar_text (fst kv) /\ plain (snd kv).

(** [d[k] = v] for each entry in turn, as the decoder builds a dict. *)
Definition dict_of (entries : pydict) (d : pydict) : pydict :=
  fold_left (fun d kv => dict_set (fst kv) (snd kv) d) entries d.

(** The characters that [json.dumps] writes with a short escape. *)
Definition escaped (c : N) : bool :=
  ((c =? 34) || (c =? 92) || (c =? 10) || (c =? 13) || (c =? 9) || (c =? 12)
   || (c =? 8))%N.

(** The text of one entry of an object as [json.dumps] writes it. *)
Definition entry_text (kv : text * pyval) : text :=
  encode_string (fst kv) ++ lit ": " ++ json_dumps (snd kv).

(** Printable ASCII: from the space to the tilde. *)
Definition printable (c : N) : bool := ((32 <=? c) && (c <=? 126))%N.

(** A record whose texts hold scalar values only. *)
Definition scalar_record (p : PII) : Prop :=
  Forall (fun kv => plain (snd kv)) (PII_dict p).

(** What a turn with a positive verdict writes when the extraction gives
    a record. *)
Definition positive_turn (sentence : text) (p : PII) : list text :=
  [input_prompt; sentence_line sentence ++ nl; verdict_line true ++ nl;
   extracted_header ++ nl;
   item_line "Explanation" (explanation p);
   item_line "Name" (name p);
   item_line "Number" (number p);
   item_line "Email" (email p);
   item_line "Address" (address p);
   item_line "Social_security_number" (social_security_number p);
   item_line "Credit_card_number" (credit_card_number p);
   separator ++ nl].

(** A model that follows its instructions: [verdict] is its completion
    for the classification of a sentence and [record_of] the record whose
    JSON text it gives for the extraction.  What a turn writes and which
    requests it sends, under such a model. *)
Definition turn_transcript (verdict : text -> text) (record_of : text -> PII)
  (sentence : text) : list text :=
  if startswith (strip (verdict sentence)) (lit "True")
  then positive_turn sentence (record_of sentence)
  else negative_turn sentence.

Definition turn_calls (verdict : text -> text) (sentence : text) : list request :=
  if startswith (strip (verdict sentence)) (lit "True")
  then [detection_request sentence; extraction_request sentence]
  else [detection_request sentence].

(** An endpoint that tells the two prompts apart by their indentation (the
    character at position 18 of the body is a space for the classifier's
    prompt and the letter H for the extractor's) and answers the first
    with a verdict and the second with the JSON text of a record. *)
Definition assistant (verdict : text) (p : PII) : nat -> request -> reply :=
  fun _ r =>
    Body (completion_body
            (if (nth 18 (req_body r) 0 =? 32)%N then verdict
             else json_dumps (PDict (PII_dict p)))).

(* ===================================================================== *)
(** ** More scenarios *)
(* ===================================================================== *)

(** A platform as sentences in ASCII see it: characters outside ASCII are
    left as they are, and no container is ever printed. *)
Definition unchanged_lower : text -> nat -> text := fun s i => [nth i s 0%N].
Definition unchanged_title : N -> text := fun c => [c].
Definition no_container : pyval -> text := fun _ => [].

(** A prompt with a quoted word and a line feed. *)
Definition quoted_prompt : text :=
  lit "Is " ++ dq ++ lit "a@b.com" ++ dq ++ lit " an address?" ++ nl.

(** The JSON text of the record of the email example, as [json.dumps]
    writes it. *)
Definition email_record_text : text := json_dumps (PDict (PII_dict email_record)).



(* ===================================================================== *)
(** * Properties *)
(* ===================================================================== *)

(** Membership in the field list, and the comparison of two literal keys,
    by computation. *)
Ltac in_fields := unfold PII_fields; cbn [In]; tauto.

Ltac eval_key_tests :=
  repeat match goal with
         | |- context [text_eqb (lit ?a) (lit ?b)] =>
             let v := eval vm_compute in (text_eqb (lit a) (lit b)) in
             change (text_eqb (lit a) (lit b)) with v
         end;
  cbv iota.

(* ===================================================================== *)
(** ** Properties of the text operations *)
(* ===================================================================== *)

Lemma text_eqb_eq (a b : text) : text_eqb a b = true <-> a = b.
Proof.
  unfold text_eqb. destruct (list_eq_dec N.eq_dec a b); split; congruence.
Qed.

Lemma text_eqb_refl (a : text) : text_eqb a a = true.
Proof. apply text_eqb_eq. reflexivity. Qed.

Lemma startswith_iff (s p : text) :
  startswith s p = true <-> exists rest, s = p ++ rest.
Proof.
  revert s. induction p as [|b p IH]; intros s; simpl.
  - split; [intros _; exists s; reflexivity | reflexivity].
  - destruct s as [|a s]; simpl.
    + split; [discriminate | intros [rest H]; discriminate].
    + rewrite andb_true_iff, N.eqb_eq, IH. split.
      * intros [-> [rest ->]]. exists rest. reflexivity.
      * intros [rest H]. injection H as -> ->. split; [reflexivity | eauto].
Qed.

(** [lstrip] removes a run of whitespace and nothing else. *)
Lemma lstrip_split (s : text) :
  exists ws, Forall (fun c => isspace c = true) ws /\ s = ws ++ lstrip s.
Proof.
  induction s as [|c s [ws [Hws Hs]]]; simpl.
  - exists []. split; [constructor | reflexivity].
  - destruct (isspace c) eqn:Hc.
    + exists (c :: ws). split; [constructor; assumption | simpl; congruence].
    + exists []. split; [constructor | reflexivity].
Qed.

Lemma lstrip_spaces_app (ws s : text) :
  Forall (fun c => isspace c = true) ws -> lstrip (ws ++ s) = lstrip s.
Proof.
  induction 1 as [|c ws Hc _ IH]; simpl; [reflexivity |].
  rewrite Hc. exact IH.
Qed.

Lemma lstrip_app_nonspace (x : text) (c : N) (y : text) :
  isspace c = false -> lstrip (x ++ c :: y) = lstrip x ++ c :: y.
Proof.
  intros Hc. induction x as [|a x IH]; simpl.
  - rewrite Hc. reflexivity.
  - destruct (isspace a); [exact IH | reflexivity].
Qed.

(** [rstrip] only removes from the end: what it returns is a prefix. *)
Lemma rstrip_prefix (s : text) : exists ws, s = rstrip s ++ ws.
Proof.
  unfold rstrip. destruct (lstrip_split (rev s)) as [ws [_ H]].
  exists (rev ws). rewrite <- rev_app_distr, <- H, rev_involutive. reflexivity.
Qed.

(** A prefix that ends in a character that is not whitespace survives
    [rstrip]. *)
Lemma rstrip_app_nonspace (x : text) (c : N) (y : text) :
  isspace c = false -> rstrip (x ++ c :: y) = x ++ c :: rstrip y.
Proof.
  intros Hc. unfold rstrip.
  rewrite rev_app_distr. simpl. rewrite <- app_assoc. simpl.
  rewrite lstrip_app_nonspace by exact Hc.
  rewrite rev_app_distr. simpl. rewrite rev_involutive, <- app_assoc.
  reflexivity.
Qed.


(** The decision of [pii_detection], on the raw response: some whitespace,
    then the four characters of True, then anything. *)
Lemma strip_startswith_True (r : text) :
  startswith (strip r) (lit "True") = true <->
  exists ws rest, Forall (fun c => isspace c = true) ws /\ r = ws ++ lit "True" ++ rest.
Proof.
  unfold strip. split.
  - intros H. apply startswith_iff in H. destruct H as [rest H].
    destruct (rstrip_prefix (lstrip r)) as [tl Htl].
    destruct (lstrip_split r) as [ws [Hws Hr]].
    exists ws, (rest ++ tl). split; [exact Hws |].
    rewrite Hr at 1. rewrite Htl, H, <- app_assoc. reflexivity.
  - intros [ws [rest [Hws ->]]].
    rewrite lstrip_spaces_app by exact Hws.
    change (lit "True" ++ rest) with ([84; 114; 117]%N ++ 101%N :: rest) at 1.
    change (lstrip ([84; 114; 117]%N ++ 101%N :: rest))
      with ([84; 114; 117]%N ++ 101%N :: rest).
    rewrite rstrip_app_nonspace by reflexivity.
    reflexivity.
Qed.

(* ===================================================================== *)
(** ** The decoder stops, and not for lack of fuel *)
(* ===================================================================== *)

Lemma skip_ws_length (s : text) : length (skip_ws s) <= length s.
Proof.
  induction s as [|c s IH]; simpl; [lia |].
  destruct (is_json_ws c); simpl; lia.
Qed.

Lemma hex4_length (s : text) (u : N) (r : text) :
  hex4 s = Some (u, r) -> length s = 4 + length r.
Proof.
  unfold hex4. destruct s as [|a [|b [|c [|d rest]]]]; try discriminate.
  destruct (hex_digit a), (hex_digit b), (hex_digit c), (hex_digit d);
    try discriminate.
  intros H. injection H as _ <-. reflexivity.
Qed.

Lemma scanstring_length (f : nat) :
  forall s acc out rest,
    scanstring f s acc = Some (out, rest) -> length rest < length s.
Proof.
  induction f as [|f IH]; intros s acc out rest; [discriminate |].
  cbn [scanstring]. destruct s as [|c r]; [discriminate |].
  destruct (c =? 34)%N.
  { intros H. injection H as _ <-. simpl. lia. }
  destruct (c =? 92)%N.
  - destruct r as [|e r1]; [discriminate |].
    destruct (e =? 117)%N.
    + destruct (hex4 r1) as [[u r2]|] eqn:Hh; [|discriminate].
      apply hex4_length in Hh.
      destruct (is_high_surrogate u && (7 <=? length r2) && startswith r2 [92; 117]%N).
      * destruct (hex4 (skipn 2 r2)) as [[u2 r3]|] eqn:Hh2; [|discriminate].
        apply hex4_length in Hh2. pose proof (length_skipn 2 r2) as Hs.
        destruct (is_low_surrogate u2); intros H; apply IH in H; simpl in *; lia.
      * intros H. apply IH in H. simpl in *. lia.
    + destruct (simple_escape e); [|discriminate].
      intros H. apply IH in H. simpl in *. lia.
  - destruct (c <=? 31)%N; [discriminate |].
    intros H. apply IH in H. simpl in *. lia.
Qed.

(** The length of a string body is fuel enough to scan it. *)
Lemma scanstring_fuel (f : nat) :
  forall f' s acc,
    length s <= f -> length s <= f' -> scanstring f s acc = scanstring f' s acc.
Proof.
  induction f as [|f IH]; intros f' s acc Hf Hf'.
  - destruct s; [|simpl in Hf; lia]. destruct f'; reflexivity.
  - destruct f' as [|f'].
    { destruct s; [reflexivity | simpl in Hf'; lia]. }
    cbn [scanstring]. destruct s as [|c r]; [reflexivity |].
    cbn [length] in *.
    destruct (c =? 34)%N; [reflexivity |].
    destruct (c =? 92)%N.
    + destruct r as [|e r1]; [reflexivity |]. cbn [length] in *.
      destruct (e =? 117)%N.
      * destruct (hex4 r1) as [[u r2]|] eqn:Hh; [|reflexivity].
        apply hex4_length in Hh.
        destruct (is_high_surrogate u && (7 <=? length r2) && startswith r2 [92; 117]%N).
        -- destruct (hex4 (skipn 2 r2)) as [[u2 r3]|] eqn:Hh2; [|reflexivity].
           apply hex4_length in Hh2. pose proof (length_skipn 2 r2) as Hs.
           destruct (is_low_surrogate u2); apply IH; lia.
        -- apply IH; lia.
      * destruct (simple_escape e); [|reflexivity]. apply IH; lia.
    + destruct (c <=? 31)%N; [reflexivity |]. apply IH; lia.
Qed.

Lemma span_digits_length (s : text) : length (snd (span_digits s)) <= length s.
Proof.
  induction s as [|c r IH]; simpl; [lia |].
  destruct (is_digit c); [|simpl; lia].
  destruct (span_digits r) as [ds r']. simpl in *. lia.
Qed.

Lemma match_int_part_length (s ip r : text) :
  match_int_part s = Some (ip, r) -> length r < length s.
Proof.
  unfold match_int_part. destruct s as [|c s']; [discriminate |].
  destruct ((49 <=? c) && (c <=? 57))%N.
  - pose proof (span_digits_length s') as H.
    destruct (span_digits s') as [ds r']. intros E. injection E as _ <-.
    simpl in *. lia.
  - destruct (c =? 48)%N; [|discriminate].
    intros E. injection E as _ <-. simpl. lia.
Qed.

Lemma match_frac_length (s : text) : length (snd (match_frac s)) <= length s.
Proof.
  unfold match_frac. destruct s as [|c [|d s'']]; [simpl; lia | simpl; lia |].
  destruct ((c =? 46)%N && is_digit d); [|simpl; lia].
  pose proof (span_digits_length (d :: s'')) as H.
  destruct (span_digits (d :: s'')) as [ds r']. simpl in *. lia.
Qed.

Lemma match_exp_length (s : text) : length (snd (match_exp s)) <= length s.
Proof.
  unfold match_exp. destruct s as [|e r]; [simpl; lia |].
  destruct ((e =? 101) || (e =? 69))%N; [|simpl; lia].
  destruct r as [|c r'].
  - simpl. lia.
  - destruct ((c =? 45) || (c =? 43))%N.
    + pose proof (span_digits_length r') as H'.
      destruct (span_digits r') as [ds r2]. destruct ds; simpl in *; lia.
    + pose proof (span_digits_length (c :: r')) as H'.
      destruct (span_digits (c :: r')) as [ds r2]. destruct ds; simpl in *; lia.
Qed.

Lemma startswith_skipn_length (s p : text) :
  startswith s p = true -> length (skipn (length p) s) + length p = length s.
Proof.
  intros H. apply startswith_iff in H. destruct H as [rest ->].
  rewrite skipn_app, skipn_all, Nat.sub_diag. cbn [skipn app].
  rewrite length_app. lia.
Qed.

Section DecoderFuel.

Variable float_repr : text -> text.

Lemma match_number_length (s : text) (v : pyval) (r : text) :
  match_number float_repr s = Some (v, r) -> length r < length s.
Proof.
  unfold match_number.
  assert (H : forall (s1 sign : text), length s1 <= length s ->
            match match_int_part s1 with
            | None => None
            | Some (ip, r1) =>
                let (fp, r2) := match_frac r1 in
                let (ep, r3) := match_exp r2 in
                match fp, ep with
                | [], [] =>
                    let n := Z.of_N (digits_value ip) in
                    Some (PInt (match sign with [] => n | _ => (- n)%Z end), r3)
                | _, _ => Some (PFloat (float_repr (sign ++ ip ++ fp ++ ep)), r3)
                end
            end = Some (v, r) -> length r < length s).
  { intros s1 sign Hs1.
    destruct (match_int_part s1) as [[ip r1]|] eqn:Hip; [|discriminate].
    apply match_int_part_length in Hip.
    pose proof (match_frac_length r1) as Hf.
    destruct (match_frac r1) as [fp r2].
    pose proof (match_exp_length r2) as He.
    destruct (match_exp r2) as [ep r3]. cbn [snd] in *.
    destruct fp, ep; intros E; injection E as _ <-; lia. }
  destruct s as [|c s']; [exact (H [] [] (Nat.le_refl _)) |].
  destruct (c =? 45)%N;
    [exact (H s' [c] (Nat.le_succ_diag_r _)) | exact (H (c :: s') [] (Nat.le_refl _))].
Qed.

Ltac step_prefix :=
  match goal with
  | |- (if startswith ?a ?b then _ else _) = _ -> _ =>
      let H := fresh "Hpre" in
      destruct (startswith a b) eqn:H;
      [ apply startswith_skipn_length in H;
        let n := eval vm_compute in (length b) in change (length b) with n in H;
        match type of H with
        | length ?t + _ = _ => let x := fresh "t" in set (x := t) in *; clearbody x
        end
      | ]
  end.

(** What the decoder leaves is shorter than what it was given. *)
Lemma decode_length (f : nat) :
  (forall s v r, scan_once float_repr f s = Some (v, r) -> length r < length s)
  /\ (forall s d v r, parse_members float_repr f s d = Some (v, r) -> length r < length s)
  /\ (forall s acc v r, parse_items float_repr f s acc = Some (v, r) -> length r < length s).
Proof.
  induction f as [|f [IHs [IHm IHi]]]; [repeat split; discriminate |].
  split; [| split].
  - intros s v r. cbn [scan_once]. destruct s as [|c s']; [discriminate |].
    destruct (c =? 34)%N.
    { destruct (scanstring (length s') s' []) as [[str r']|] eqn:Hs; [|discriminate].
      apply scanstring_length in Hs. intros E. injection E as _ <-. cbn [length] in *. lia. }
    pose proof (skip_ws_length s') as Hw.
    destruct (c =? 123)%N.
    { cbn zeta. step_prefix.
      - intros E. injection E as _ <-. cbn [length] in *. lia.
      - intros E. apply IHm in E. cbn [length] in *. lia. }
    destruct (c =? 91)%N.
    { cbn zeta. step_prefix.
      - intros E. injection E as _ <-. cbn [length] in *. lia.
      - intros E. apply IHi in E. cbn [length] in *. lia. }
    repeat (step_prefix; [intros E; injection E as _ <-; cbn [length] in *; lia |]).
    apply match_number_length.
  - intros s d v r. cbn [parse_members]. step_prefix; [|discriminate].
    cbn zeta.
    match goal with
    | |- match scanstring ?n ?x ?a with _ => _ end = _ -> _ =>
        destruct (scanstring n x a) as [[key r1]|] eqn:Hs; [|discriminate]
    end.
    apply scanstring_length in Hs.
    pose proof (skip_ws_length r1) as Hw1.
    step_prefix; [|discriminate].
    match goal with
    | |- match scan_once _ _ (skip_ws ?x) with _ => _ end = _ -> _ =>
        pose proof (skip_ws_length x) as Hw2;
        destruct (scan_once float_repr f (skip_ws x)) as [[v' r3]|] eqn:Hv;
        [|discriminate]
    end.
    apply IHs in Hv. pose proof (skip_ws_length r3) as Hw3.
    step_prefix; [intros E; injection E as _ <-; lia |].
    step_prefix; [|discriminate].
    match goal with
    | |- parse_members _ _ (skip_ws ?x) _ = _ -> _ =>
        pose proof (skip_ws_length x) as Hw4
    end.
    intros E. apply IHm in E. lia.
  - intros s acc v r. cbn [parse_items].
    destruct (scan_once float_repr f s) as [[v' r1]|] eqn:Hv; [|discriminate].
    apply IHs in Hv. cbn zeta. pose proof (skip_ws_length r1) as Hw1.
    step_prefix; [intros E; injection E as _ <-; lia |].
    step_prefix; [|discriminate].
    match goal with
    | |- parse_items _ _ (skip_ws ?x) _ = _ -> _ =>
        pose proof (skip_ws_length x) as Hw2
    end.
    intros E. apply IHi in E. lia.
Qed.

Ltac same_prefix :=
  match goal with
  | |- (if startswith ?a ?b then _ else _) = (if startswith ?a ?b then _ else _) =>
      let H := fresh "Hpre" in
      destruct (startswith a b) eqn:H;
      [ apply startswith_skipn_length in H;
        let n := eval vm_compute in (length b) in change (length b) with n in H
      | ]
  end.

(** With enough fuel for the length of the text, the decoder's answer does
    not depend on the fuel: it never stops for lack of it. *)
Lemma decode_fuel (n : nat) :
  (forall s f f', length s <= n -> 2 * length s + 1 <= f -> 2 * length s + 1 <= f' ->
                  scan_once float_repr f s = scan_once float_repr f' s)
  /\ (forall s d f f', length s <= n -> 2 * length s <= f -> 2 * length s <= f' ->
                       parse_members float_repr f s d = parse_members float_repr f' s d)
  /\ (forall s acc f f', length s <= n ->
                         2 * length s + 2 <= f -> 2 * length s + 2 <= f' ->
                         parse_items float_repr f s acc = parse_items float_repr f' s acc).
Proof.
  induction n as [|n [IHs [IHm IHi]]].
  - split; [| split].
    + intros s f f' Hn Hf Hf'. destruct s; [|simpl in Hn; lia].
      destruct f, f'; reflexivity.
    + intros s d f f' Hn Hf Hf'. destruct s; [|simpl in Hn; lia].
      destruct f, f'; reflexivity.
    + intros s acc f f' Hn Hf Hf'. destruct s; [|simpl in Hn; lia].
      destruct f as [|[|f]], f' as [|[|f']]; try lia; reflexivity.
  - assert (Hscan : forall s f f', length s <= S n ->
              2 * length s + 1 <= f -> 2 * length s + 1 <= f' ->
              scan_once float_repr f s = scan_once float_repr f' s).
    { intros s f f' Hn Hf Hf'.
      destruct f as [|g]; [lia |]. destruct f' as [|g']; [lia |].
      cbn [scan_once]. destruct s as [|c s']; [reflexivity |].
      cbn [length] in *. pose proof (skip_ws_length s') as Hw.
      destruct (c =? 34)%N; [reflexivity |].
      destruct (c =? 123)%N.
      { cbn zeta. same_prefix; [reflexivity |]. apply IHm; lia. }
      destruct (c =? 91)%N.
      { cbn zeta. same_prefix; [reflexivity |]. apply IHi; lia. }
      reflexivity. }
    split; [exact Hscan | split].
    + intros s d f f' Hn Hf Hf'.
      destruct f as [|g], f' as [|g']; try reflexivity.
      * cbn [parse_members]. destruct s; [reflexivity | simpl in Hf; lia].
      * cbn [parse_members]. destruct s; [reflexivity | simpl in Hf'; lia].
      * cbn [parse_members]. same_prefix; [|reflexivity]. cbn zeta.
        match goal with
        | |- match scanstring ?k ?x ?a with _ => _ end = _ =>
            destruct (scanstring k x a) as [[key r1]|] eqn:Hs; [|reflexivity];
            apply scanstring_length in Hs
        end.
        pose proof (skip_ws_length r1) as Hw1.
        same_prefix; [|reflexivity].
        match goal with
        | |- match scan_once _ _ (skip_ws ?x) with _ => _ end = _ =>
            pose proof (skip_ws_length x) as Hw2;
            rewrite (IHs (skip_ws x) g g') by lia;
            destruct (scan_once float_repr g' (skip_ws x)) as [[v r3]|] eqn:Hv;
            [|reflexivity]
        end.
        apply decode_length in Hv. pose proof (skip_ws_length r3) as Hw3.
        same_prefix; [reflexivity |].
        same_prefix; [|reflexivity].
        match goal with
        | |- parse_members _ _ (skip_ws ?x) _ = _ =>
            pose proof (skip_ws_length x) as Hw4
        end.
        apply IHm; lia.
    + intros s acc f f' Hn Hf Hf'.
      destruct f as [|g]; [lia |]. destruct f' as [|g']; [lia |].
      cbn [parse_items]. rewrite (Hscan s g g') by lia.
      destruct (scan_once float_repr g' s) as [[v r1]|] eqn:Hv; [|reflexivity].
      apply decode_length in Hv. cbn zeta. pose proof (skip_ws_length r1) as Hw1.
      same_prefix; [reflexivity |].
      same_prefix; [|reflexivity].
      match goal with
      | |- parse_items _ _ (skip_ws ?x) _ = _ =>
          pose proof (skip_ws_length x) as Hw2
      end.
      apply IHi; lia.
Qed.

(** [json_decode] is the decoder with as much fuel as one likes. *)
Lemma json_decode_any_fuel (s : text) (f : nat) :
  2 * length s + 1 <= f ->
  json_decode float_repr s
  = match scan_once float_repr f (skip_ws s) with
    | Some (v, r) => match skip_ws r with [] => Some v | _ :: _ => None end
    | None => None
    end.
Proof.
  intros Hf. unfold json_decode. pose proof (skip_ws_length s) as Hw.
  rewrite (proj1 (decode_fuel (length s)) (skip_ws s) (2 * length s + 1) f);
    [reflexivity | lia | lia | lia].
Qed.

End DecoderFuel.

(* ===================================================================== *)
(** ** Runs of the inference client and of the retry loop *)
(* ===================================================================== *)

Lemma attempts_left_decreases (retries : Z) :
  (retries < 3)%Z -> attempts_left (retries + 1) < attempts_left retries.
Proof. unfold attempts_left. lia. Qed.

Section Runs.

Variable endpoint : nat -> request -> reply.
Variable float_repr : text -> text.
Variable parse_raw : pyval -> result PII.

Lemma query_run (prompt : text) (w : world) :
  query endpoint float_repr prompt w =
  (match endpoint (calls w) (request_of prompt) with
   | Body b => completion_of float_repr b
   | Fails d => Raise (TransportError d)
   end, after_call (request_of prompt) w).
Proof.
  unfold query, bind, invoke_model, lift, request_of, after_call.
  destruct (endpoint (calls w) _); reflexivity.
Qed.

Lemma attempt_run (prompt question : text) (w : world) :
  attempt endpoint float_repr parse_raw prompt question w =
  (match endpoint (calls w) (request_of (prompt ++ question ++ nl ++ lit "AI: ")) with
   | Body b =>
       match completion_of float_repr b with
       | Ok c => match parse_raw c with
                 | Ok p => Ok (PII_dict p)
                 | Raise e => Raise e
                 end
       | Raise e => Raise e
       end
   | Fails d => Raise (TransportError d)
   end, after_call (request_of (prompt ++ question ++ nl ++ lit "AI: ")) w).
Proof.
  unfold attempt, bind. rewrite query_run.
  destruct (endpoint (calls w) _) as [b|d]; [|reflexivity].
  destruct (completion_of float_repr b) as [c|e]; [|reflexivity].
  unfold lift, ret. destruct (parse_raw c); reflexivity.
Qed.

Lemma retry_loop_exit (prompt question : text) (retries backoff_time : Z) (w : world) :
  (3 <= retries)%Z ->
  retry_loop endpoint float_repr parse_raw prompt question retries backoff_time w
  = (Ok error_dict, w).
Proof.
  intros H. rewrite retry_loop_equation_1.
  destruct (Z_lt_dec retries 3) as [Hlt|Hge]; [lia | reflexivity].
Qed.

Lemma retry_loop_enter (prompt question : text) (retries backoff_time : Z) (w : world) :
  (retries < 3)%Z ->
  retry_loop endpoint float_repr parse_raw prompt question retries backoff_time w
  = match attempt endpoint float_repr parse_raw prompt question w with
    | (Ok d, w1) => (Ok d, w1)
    | (Raise (ValidationError locs), w1) =>
        retry_loop endpoint float_repr parse_raw prompt question
                   (retries + 1) (backoff_time + 1) (after_handler locs backoff_time w1)
    | (Raise e, w1) => (Raise e, w1)
    end.
Proof.
  intros H. rewrite retry_loop_equation_1.
  destruct (Z_lt_dec retries 3) as [Hlt|Hge]; [|lia].
  cbn [retry_loop_unfold_clause_1].
  destruct (attempt endpoint float_repr parse_raw prompt question w) as [[d|e] w1];
    [reflexivity |].
  destruct e; try reflexivity.
  unfold print, sleep, emit, after_handler. cbn [calls trace].
  rewrite <- app_assoc. reflexivity.
Qed.

Lemma attempt_fails (prompt question : text) (w : world) (locs : list text) :
  fails_validation endpoint float_repr parse_raw (calls w) (request_of (prompt ++ question ++ nl ++ lit "AI: ")) locs ->
  attempt endpoint float_repr parse_raw prompt question w
  = (Raise (ValidationError locs),
     after_call (request_of (prompt ++ question ++ nl ++ lit "AI: ")) w).
Proof.
  intros [c [[b [Hb Hc]] Hp]]. rewrite attempt_run, Hb, Hc, Hp. reflexivity.
Qed.

Lemma attempt_validates (prompt question : text) (w : world) (p : PII) :
  validates endpoint float_repr parse_raw (calls w) (request_of (prompt ++ question ++ nl ++ lit "AI: ")) p ->
  attempt endpoint float_repr parse_raw prompt question w
  = (Ok (PII_dict p),
     after_call (request_of (prompt ++ question ++ nl ++ lit "AI: ")) w).
Proof.
  intros [c [[b [Hb Hc]] Hp]]. rewrite attempt_run, Hb, Hc, Hp. reflexivity.
Qed.

Lemma attempt_transport_fails (prompt question : text) (w : world) (d : text) :
  transport_fails endpoint (calls w) (request_of (prompt ++ question ++ nl ++ lit "AI: ")) d ->
  attempt endpoint float_repr parse_raw prompt question w
  = (Raise (TransportError d),
     after_call (request_of (prompt ++ question ++ nl ++ lit "AI: ")) w).
Proof.
  unfold transport_fails. intros H. rewrite attempt_run, H. reflexivity.
Qed.

Lemma attempt_raises (prompt question : text) (w : world) (e : exception) :
  raises_error endpoint float_repr parse_raw (calls w) (request_of (prompt ++ question ++ nl ++ lit "AI: ")) e ->
  attempt endpoint float_repr parse_raw prompt question w
  = (Raise e,
     after_call (request_of (prompt ++ question ++ nl ++ lit "AI: ")) w).
Proof.
  intros [_ [[d [Hd ->]] | [[b [Hb Hc]] | [c [[b [Hb Hc]] Hp]]]]];
    rewrite attempt_run.
  - rewrite Hd. reflexivity.
  - rewrite Hb, Hc. reflexivity.
  - rewrite Hb, Hc, Hp. reflexivity.
Qed.

(** An error that is not a validation error leaves the loop at once. *)
Lemma retry_loop_raises (prompt question : text) (retries backoff_time : Z)
  (w : world) (e : exception) :
  (retries < 3)%Z ->
  raises_error endpoint float_repr parse_raw (calls w) (request_of (prompt ++ question ++ nl ++ lit "AI: ")) e ->
  retry_loop endpoint float_repr parse_raw prompt question retries backoff_time w
  = (Raise e,
     after_call (request_of (prompt ++ question ++ nl ++ lit "AI: ")) w).
Proof.
  intros Hlt He. rewrite retry_loop_enter by exact Hlt.
  rewrite (attempt_raises _ _ _ He). destruct He as [He _].
  destruct e; try reflexivity. discriminate He.
Qed.

(** The loop invariant: after each failed validation the counter and the
    delay have grown by one, one call was made, and the trace has one more
    round. *)
Lemma retry_loop_failures (prompt question : text) (failures : list (list text)) :
  forall (retries backoff_time : Z) (w : world),
    (retries + Z.of_nat (length failures) <= 3)%Z ->
    all_fail endpoint float_repr parse_raw (calls w) (request_of (prompt ++ question ++ nl ++ lit "AI: ")) failures ->
    retry_loop endpoint float_repr parse_raw prompt question retries backoff_time w
    = retry_loop endpoint float_repr parse_raw prompt question
        (retries + Z.of_nat (length failures))
        (backoff_time + Z.of_nat (length failures))
        {| calls := calls w + length failures;
           trace := trace w
                    ++ failed_rounds (request_of (prompt ++ question ++ nl ++ lit "AI: "))
                                     backoff_time failures |}.
Proof.
  induction failures as [|locs rest IH]; intros retries backoff_time w Hle Hall.
  - cbn [length failed_rounds Z.of_nat]. rewrite !Z.add_0_r, Nat.add_0_r, app_nil_r.
    destruct w; reflexivity.
  - destruct Hall as [Hfail Hrest]. cbn [length] in Hle |- *.
    rewrite retry_loop_enter by lia.
    rewrite (attempt_fails _ _ _ Hfail).
    rewrite IH; [| lia | exact Hrest].
    f_equal; [lia | lia |].
    unfold after_handler, after_call. cbn [calls trace failed_rounds].
    f_equal; [lia |].
    rewrite <- !app_assoc. reflexivity.
Qed.

Lemma completion_of_raises (b : bytes) (e : exception) :
  completion_of float_repr b = Raise e -> is_ValidationError e = false.
Proof.
  unfold completion_of.
  destruct (decode_bytes b) as [s|]; [| intros H; inversion H; reflexivity].
  destruct (json_decode float_repr s) as [[ | | | | | |d]|]; intros H;
    inversion H; reflexivity.
Qed.

(** Every run of the loop has one of three shapes: some failed rounds and
    then the counter reaches 3; or a valid response; or an error that is
    not a validation error. *)
Lemma retry_loop_cases (prompt question : text) (n : nat) :
  forall (retries backoff_time : Z) (w : world),
    attempts_left retries <= n ->
    let r := request_of (prompt ++ question ++ nl ++ lit "AI: ") in
    exists failures,
      all_fail endpoint float_repr parse_raw (calls w) r failures /\
      let k := length failures in
      let w' := {| calls := calls w + k;
                   trace := trace w ++ failed_rounds r backoff_time failures |} in
      let run := retry_loop endpoint float_repr parse_raw prompt question
                            retries backoff_time w in
      ((3 <= retries + Z.of_nat k)%Z /\ k <= attempts_left retries
       /\ run = (Ok error_dict, w'))
      \/ ((retries + Z.of_nat k < 3)%Z /\
          exists p, validates endpoint float_repr parse_raw (calls w + k) r p
                    /\ run = (Ok (PII_dict p), after_call r w'))
      \/ ((retries + Z.of_nat k < 3)%Z /\
          exists e, raises_error endpoint float_repr parse_raw (calls w + k) r e
                    /\ run = (Raise e, after_call r w')).
Proof.
  induction n as [|n IH]; intros retries backoff_time w Hn r.
  - exists []. split; [exact I |]. left. cbn [length Z.of_nat].
    unfold attempts_left in *.
    rewrite retry_loop_exit by lia. rewrite Nat.add_0_r, app_nil_r.
    repeat split; [lia | lia | destruct w; reflexivity].
  - destruct (Z_lt_dec retries 3) as [Hlt|Hge].
    2:{ exists []. split; [exact I |]. left. cbn [length Z.of_nat].
        rewrite retry_loop_exit by lia. rewrite Nat.add_0_r, app_nil_r.
        repeat split; [lia | lia | destruct w; reflexivity]. }
    pose proof (retry_loop_enter prompt question backoff_time w Hlt) as Henter.
    rewrite attempt_run in Henter. fold r in Henter.
    destruct (endpoint (calls w) r) as [b|d] eqn:Hep.
    2:{ exists []. split; [exact I |]. right. right. cbn [length Z.of_nat].
        split; [lia |]. exists (TransportError d).
        rewrite Nat.add_0_r, app_nil_r. split.
        - split; [reflexivity |]. left. exists d. split; [exact Hep | reflexivity].
        - rewrite Henter. destruct w; reflexivity. }
    destruct (completion_of float_repr b) as [c|e] eqn:Hc.
    2:{ exists []. split; [exact I |]. right. right. cbn [length Z.of_nat].
        split; [lia |]. exists e.
        rewrite Nat.add_0_r, app_nil_r. split.
        - split; [exact (completion_of_raises _ Hc) |].
          right. left. exists b. split; assumption.
        - rewrite Henter. pose proof (completion_of_raises _ Hc) as He.
          destruct e; try discriminate He; destruct w; reflexivity. }
    assert (Hresp : responds endpoint float_repr (calls w) r c) by (exists b; split; assumption).
    destruct (parse_raw c) as [p|e] eqn:Hp.
    { exists []. split; [exact I |]. right. left. cbn [length Z.of_nat].
      split; [lia |]. exists p. rewrite Nat.add_0_r, app_nil_r. split.
      - exists c. split; assumption.
      - rewrite Henter. destruct w; reflexivity. }
    destruct (is_ValidationError e) eqn:He.
    2:{ exists []. split; [exact I |]. right. right. cbn [length Z.of_nat].
        split; [lia |]. exists e. rewrite Nat.add_0_r, app_nil_r. split.
        - split; [exact He |]. right. right. exists c. split; assumption.
        - rewrite Henter. destruct e; try discriminate He; destruct w; reflexivity. }
    destruct e as [locs| | | | |]; try discriminate He.
    assert (Hn' : attempts_left (retries + 1) <= n).
    { pose proof (attempts_left_decreases Hlt). lia. }
    destruct (IH (retries + 1)%Z (backoff_time + 1)%Z
                 (after_handler locs backoff_time (after_call r w)) Hn')
      as [failures [Hall Hcases]].
    fold r in Hall, Hcases. cbn zeta in Hcases.
    exists (locs :: failures). split.
    { split; [exists c; split; assumption | exact Hall]. }
    cbn zeta. rewrite Henter. cbn [length failed_rounds].
    unfold after_handler, after_call in Hcases |- *. cbn [calls trace] in Hcases |- *.
    replace (calls w + S (length failures)) with (S (calls w) + length failures) by lia.
    replace (trace w ++
             ([Invoke r; Print failure_fmt (ValidationError locs); Sleep backoff_time]
              ++ failed_rounds r (backoff_time + 1) failures))
      with (((trace w ++ [Invoke r])
             ++ [Print failure_fmt (ValidationError locs); Sleep backoff_time])
            ++ failed_rounds r (backoff_time + 1) failures)
      by (rewrite <- !app_assoc; reflexivity).
    pose proof (attempts_left_decreases Hlt) as Hdec.
    destruct Hcases as [[H3 [Hk Hrun]] | [[H3 Hrun] | [H3 Hrun]]].
    + left. repeat split; [lia | lia | exact Hrun].
    + right. left. split; [lia | exact Hrun].
    + right. right. split; [lia | exact Hrun].
Qed.

End Runs.

(* ===================================================================== *)
(** ** The inference client *)
(* ===================================================================== *)

(** C7. For every prompt, [query] sends one request that is a function of
    the prompt alone: the serialised dict holds the prompt and the fixed
    parameters max_tokens_to_sample = 1000, temperature = 0.0 and
    stop_sequences = [Human:], for the fixed model and content types; and
    whatever the endpoint does with it, the invocation makes exactly one
    remote call: no second call, no delay, nothing else. *)
Theorem query_one_call_fixed_parameters
  (endpoint : nat -> request -> reply) (float_repr : text -> text)
  (prompt : text) (w : world) :
  let run := query endpoint float_repr prompt w in
  let r := request_of prompt in
  (exists d, request_payload prompt = PDict d
             /\ keys d = [lit "prompt"; lit "max_tokens_to_sample";
                          lit "temperature"; lit "stop_sequences"]
             /\ dict_get (lit "prompt") d = Some (PStr prompt)
             /\ dict_get (lit "max_tokens_to_sample") d = Some (PInt 1000)
             /\ dict_get (lit "temperature") d = Some (PFloat (lit "0.0"))
             /\ dict_get (lit "stop_sequences") d = Some (PList [PStr (lit "Human:")]))
  /\ req_body r
     = json_text "{'prompt': " ++ encode_string prompt
       ++ json_text ", 'max_tokens_to_sample': 1000, 'temperature': 0.0, 'stop_sequences': ['Human:']}"
  /\ req_modelId r = lit "anthropic.claude-v1"
  /\ req_accept r = lit "application/json"
  /\ req_contentType r = lit "application/json"
  /\ trace (snd run) = trace w ++ [Invoke r]
  /\ requests (trace (snd run)) = requests (trace w) ++ [r]
  /\ delays (trace (snd run)) = delays (trace w)
  /\ calls (snd run) = S (calls w).
Proof.
  cbn zeta. rewrite query_run. cbn [snd after_call trace calls].
  split; [eexists; split; [reflexivity | repeat split; reflexivity] |].
  split.
  { unfold request_of, request_payload. cbn [req_body json_dumps map fst snd join_comma].
    unfold encode_string. rewrite <- !app_assoc. reflexivity. }
  repeat split.
  - unfold requests. rewrite flat_map_app. reflexivity.
  - unfold delays. rewrite flat_map_app. cbn. rewrite app_nil_r. reflexivity.
Qed.

(* ===================================================================== *)
(** ** The PII record *)
(* ===================================================================== *)

(** C8. The record parsed from the JSON text of the specification has
    email a@b.com, the explanation of the text, and the five other PII
    fields absent; [dict()] shows them as [None]. *)
Theorem parse_raw_email_example (float_repr : text -> text) :
  exists p,
    PII_parse_raw float_repr (PStr email_example) = Ok p
    /\ email p = Some (lit "a@b.com")
    /\ name p = None /\ number p = None /\ address p = None
    /\ social_security_number p = None /\ credit_card_number p = None
    /\ explanation p = Some (lit "contains email")
    /\ PII_dict p = [(lit "explanation", PStr (lit "contains email"));
                     (lit "name", PNone); (lit "number", PNone);
                     (lit "email", PStr (lit "a@b.com"));
                     (lit "address", PNone);
                     (lit "social_security_number", PNone);
                     (lit "credit_card_number", PNone)].
Proof.
  eexists. split; [vm_compute; reflexivity |].
  repeat split.
Qed.

(** The empty object is a record with every field absent; a field that
    holds a list is refused, and named in the error. *)
Example empty_object_is_a_record :
  PII_parse_obj (PDict [])
  = Ok {| explanation := None; name := None; number := None; email := None;
          address := None; social_security_number := None;
          credit_card_number := None |}.
Proof. reflexivity. Qed.

Example list_valued_field_is_refused :
  PII_parse_obj (PDict [(lit "name", PList [PStr (lit "Ada")])])
  = Raise (ValidationError [lit "name"]).
Proof. reflexivity. Qed.

(** A response that is not JSON is a validation error of the document. *)
Example refusal_fails_validation (float_repr : text -> text) :
  PII_parse_raw float_repr (PStr refusal) = Raise (ValidationError root).
Proof. reflexivity. Qed.

Lemma validate_field_text_or_null (data : pydict) (f : text) :
  (forall v, dict_get f data = Some v -> v = PNone \/ exists s, v = PStr s) ->
  validate_field data f
  = Some (match dict_get f data with Some (PStr s) => Some s | _ => None end).
Proof.
  intros H. unfold validate_field.
  destruct (dict_get f data) as [v|]; [|reflexivity].
  destruct (H v eq_refl) as [-> | [s ->]]; reflexivity.
Qed.

(** C9. A JSON object that gives each of the seven fields a string, or
    null, or nothing at all, always validates, whichever fields it gives:
    no field is required.  In the record a field that was null or missing
    is [None] and a field given as a string is that string, so that a
    missing field and an empty string are told apart.  The same holds from
    the text of the document. *)
Theorem PII_no_field_required (data : pydict) :
  (forall f v, In f PII_fields -> dict_get f data = Some v ->
               v = PNone \/ exists s, v = PStr s) ->
  exists p,
    PII_parse_obj (PDict data) = Ok p
    /\ (forall float_repr t,
          json_loads float_repr t = Some (PDict data) ->
          PII_parse_raw float_repr (PStr t) = Ok p)
    /\ (forall f, In f PII_fields ->
          dict_get f (PII_dict p)
          = Some (match dict_get f data with Some (PStr s) => PStr s | _ => PNone end))
    /\ (forall f g, In f PII_fields -> In g PII_fields ->
          (dict_get f data = None \/ dict_get f data = Some PNone) ->
          dict_get g data = Some (PStr []) ->
          dict_get f (PII_dict p) = Some PNone
          /\ dict_get g (PII_dict p) = Some (PStr [])
          /\ dict_get f (PII_dict p) <> dict_get g (PII_dict p)).
Proof.
  intros H.
  assert (Hv : forall f, In f PII_fields ->
             validate_field data f
             = Some (match dict_get f data with Some (PStr s) => Some s | _ => None end)).
  { intros f Hf. apply validate_field_text_or_null. intros v. apply H. exact Hf. }
  pose proof (Hv (lit "explanation") ltac:(in_fields)) as H1.
  pose proof (Hv (lit "name") ltac:(in_fields)) as H2.
  pose proof (Hv (lit "number") ltac:(in_fields)) as H3.
  pose proof (Hv (lit "email") ltac:(in_fields)) as H4.
  pose proof (Hv (lit "address") ltac:(in_fields)) as H5.
  pose proof (Hv (lit "social_security_number") ltac:(in_fields)) as H6.
  pose proof (Hv (lit "credit_card_number") ltac:(in_fields)) as H7.
  assert (Hff : failed_fields data = []).
  { unfold failed_fields, PII_fields. cbn [filter].
    rewrite H1, H2, H3, H4, H5, H6, H7. reflexivity. }
  assert (Hinit : PII_init data
                  = Ok {| explanation := field_value data (lit "explanation");
                          name := field_value data (lit "name");
                          number := field_value data (lit "number");
                          email := field_value data (lit "email");
                          address := field_value data (lit "address");
                          social_security_number :=
                            field_value data (lit "social_security_number");
                          credit_card_number :=
                            field_value data (lit "credit_card_number") |}).
  { unfold PII_init. rewrite Hff. reflexivity. }
  eexists. split; [exact Hinit |].
  assert (Hget : forall f, In f PII_fields ->
            dict_get f (PII_dict
                          {| explanation := field_value data (lit "explanation");
                             name := field_value data (lit "name");
                             number := field_value data (lit "number");
                             email := field_value data (lit "email");
                             address := field_value data (lit "address");
                             social_security_number :=
                               field_value data (lit "social_security_number");
                             credit_card_number :=
                               field_value data (lit "credit_card_number") |})
            = Some (match dict_get f data with
                    | Some (PStr s) => PStr s | _ => PNone end)).
  { intros f Hf. unfold PII_dict. cbn [explanation name number email address
      social_security_number credit_card_number]. unfold field_value.
    rewrite H1, H2, H3, H4, H5, H6, H7.
    unfold PII_fields in Hf. cbn [In] in Hf.
    destruct Hf as [<-|[<-|[<-|[<-|[<-|[<-|[<-|[]]]]]]]];
      cbn [dict_get]; eval_key_tests;
      match goal with
      | |- context [dict_get ?k data] =>
          destruct (dict_get k data) as [[ | | | | | | ]|]; reflexivity
      end. }
  split; [| split].
  - intros float_repr t Ht. unfold PII_parse_raw. rewrite Ht. exact Hinit.
  - exact Hget.
  - intros f g Hf Hg Hnone Hempty.
    rewrite (Hget f Hf), (Hget g Hg), Hempty.
    destruct Hnone as [-> | ->]; repeat split; discriminate.
Qed.

(** C9 at the object that gives the email alone. *)
Lemma PII_no_field_required_witness :
  exists p,
    PII_parse_obj (PDict [(lit "email", PStr (lit "a@b.com"))]) = Ok p
    /\ dict_get (lit "email") (PII_dict p) = Some (PStr (lit "a@b.com"))
    /\ dict_get (lit "name") (PII_dict p) = Some PNone.
Proof.
  destruct (@PII_no_field_required [(lit "email", PStr (lit "a@b.com"))])
    as [p [Hp [_ [Hget _]]]].
  - intros f v Hf Hget. unfold PII_fields in Hf. cbn [In] in Hf.
    destruct Hf as [<-|[<-|[<-|[<-|[<-|[<-|[<-|[]]]]]]]];
      vm_compute in Hget; inversion Hget.
    right. eexists. reflexivity.
  - exists p. split; [exact Hp |]. split.
    + rewrite Hget by in_fields. reflexivity.
    + rewrite Hget by in_fields. reflexivity.
Defined.

(* ===================================================================== *)
(** ** The classifier *)
(* ===================================================================== *)

(** The decision on a few responses. *)
Example decision_examples :
  map (fun r => startswith (strip r) (lit "True"))
      [lit "True"; lit " True" ++ nl; lit "True, it does."; lit "False"; [];
       lit "true"; lit "It is True"; [160; 8195]%N ++ lit "True"]
  = [true; true; true; false; false; false; false; true].
Proof. reflexivity. Qed.

(** C2. When the model's response is the text [r], [pii_detection]
    returns, and does not raise; it returns [True] exactly when [r] with
    its surrounding whitespace stripped starts with True, that is when [r]
    is some whitespace, then True, then anything; for False, for the empty
    text and for every other content it returns [False]. *)
Theorem pii_detection_decision
  (endpoint : nat -> request -> reply) (float_repr : text -> text)
  (sentence : text) (w : world) (r : text) :
  responds endpoint float_repr (calls w) (detection_request sentence) (PStr r) ->
  exists b : bool,
    fst (pii_detection endpoint float_repr sentence w) = Ok b
    /\ (b = true <-> startswith (strip r) (lit "True") = true)
    /\ (b = true <->
        exists ws rest,
          Forall (fun c => isspace c = true) ws /\ r = ws ++ lit "True" ++ rest)
    /\ (r = lit "False" -> b = false)
    /\ (r = [] -> b = false).
Proof.
  intros [body [Hbody Hcompletion]].
  exists (startswith (strip r) (lit "True")).
  split.
  { unfold pii_detection, bind. rewrite query_run.
    change (request_of (detection_prompt
                        ++ (lit "Does the following sentence contain PII? " ++ sentence)
                        ++ nl ++ lit "AI: "))
      with (detection_request sentence).
    rewrite Hbody, Hcompletion. unfold ret. cbn [fst].
    destruct (startswith (strip r) (lit "True")); reflexivity. }
  split; [tauto |].
  split; [apply strip_startswith_True |].
  split; intros ->; reflexivity.
Qed.

(** C2 at the response True between a space and a line feed. *)
Lemma pii_detection_decision_witness :
  responds (answering (lit " True" ++ nl)) literal_repr 0
           (detection_request (lit "My SSN is 123-45-6789")) (PStr (lit " True" ++ nl))
  /\ fst (pii_detection (answering (lit " True" ++ nl)) literal_repr
                        (lit "My SSN is 123-45-6789") fresh) = Ok true.
Proof.
  assert (H : responds (answering (lit " True" ++ nl)) literal_repr (calls fresh)
                       (detection_request (lit "My SSN is 123-45-6789"))
                       (PStr (lit " True" ++ nl))).
  { eexists. split; [reflexivity | vm_compute; reflexivity]. }
  split; [exact H |].
  destruct (@pii_detection_decision _ _ (lit "My SSN is 123-45-6789") fresh _ H)
    as [b [Hrun [Hb _]]].
  rewrite Hrun. f_equal. apply Hb. vm_compute. reflexivity.
Defined.

(* ===================================================================== *)
(** ** The extractor *)
(* ===================================================================== *)

Lemma delays_app (t u : list event) : delays (t ++ u) = delays t ++ delays u.
Proof. unfold delays. apply flat_map_app. Qed.

Lemma requests_app (t u : list event) : requests (t ++ u) = requests t ++ requests u.
Proof. unfold requests. apply flat_map_app. Qed.

Lemma delays_failed_rounds (r : request) (failures : list (list text)) :
  forall b : nat,
    delays (failed_rounds r (Z.of_nat b) failures)
    = map Z.of_nat (seq b (length failures)).
Proof.
  induction failures as [|locs rest IH]; intros b; [reflexivity |].
  cbn [failed_rounds length seq map]. rewrite delays_app.
  replace (Z.of_nat b + 1)%Z with (Z.of_nat (S b)) by lia.
  rewrite IH. reflexivity.
Qed.

Lemma requests_failed_rounds (r : request) (failures : list (list text)) :
  forall b : Z,
    requests (failed_rounds r b failures) = repeat r (length failures).
Proof.
  induction failures as [|locs rest IH]; intros b; [reflexivity |].
  cbn [failed_rounds length repeat]. rewrite requests_app, IH. reflexivity.
Qed.

(** The failure marker is the dict of no record. *)
Lemma error_dict_is_no_record (p : PII) : error_dict <> PII_dict p.
Proof. unfold error_dict, PII_dict. discriminate. Qed.

(** The three shapes of a run of [pii_extraction]. *)
Lemma pii_extraction_cases
  (endpoint : nat -> request -> reply) (float_repr : text -> text)
  (parse_raw : pyval -> result PII) (sentence : text) (w : world) :
  let r := extraction_request sentence in
  exists failures,
    all_fail endpoint float_repr parse_raw (calls w) r failures /\
    let k := length failures in
    let w' := {| calls := calls w + k;
                 trace := trace w ++ failed_rounds r 1 failures |} in
    let run := pii_extraction endpoint float_repr parse_raw sentence w in
    (k = 3 /\ run = (Ok error_dict, w'))
    \/ (k < 3 /\ exists p, validates endpoint float_repr parse_raw (calls w + k) r p
                           /\ run = (Ok (PII_dict p), after_call r w'))
    \/ (k < 3 /\ exists e, raises_error endpoint float_repr parse_raw (calls w + k) r e
                           /\ run = (Raise e, after_call r w')).
Proof.
  intros r.
  destruct (@retry_loop_cases endpoint float_repr parse_raw extraction_prompt
              (lit "Extract the PII from the following sentence: " ++ sentence)
              3 0%Z 1%Z w) as [failures [Hall Hcases]].
  { unfold attempts_left. simpl. lia. }
  exists failures. split; [exact Hall |].
  cbn zeta in Hcases |- *. unfold pii_extraction. fold r in Hcases.
  destruct Hcases as [[H3 [Hk Hrun]] | [[H3 Hrun] | [H3 Hrun]]].
  - left. split; [|exact Hrun]. unfold attempts_left in Hk. simpl in Hk. lia.
  - right. left. split; [lia | exact Hrun].
  - right. right. split; [lia | exact Hrun].
Qed.

(** C1, as the code has it.  When the responses to three attempts in a
    row fail schema validation, [pii_extraction] makes exactly three
    remote calls, each with the same request, and sleeps after each
    failure: 1 second after the first, 2 after the second and 3 after the
    third; only then does it return the failure marker. *)
Theorem pii_extraction_three_failures
  (endpoint : nat -> request -> reply) (float_repr : text -> text)
  (parse_raw : pyval -> result PII) (sentence : text) (w : world)
  (l1 l2 l3 : list text) :
  all_fail endpoint float_repr parse_raw (calls w) (extraction_request sentence)
           [l1; l2; l3] ->
  let run := pii_extraction endpoint float_repr parse_raw sentence w in
  let r := extraction_request sentence in
  fst run = Ok error_dict
  /\ calls (snd run) = calls w + 3
  /\ requests (trace (snd run)) = requests (trace w) ++ [r; r; r]
  /\ delays (trace (snd run)) = delays (trace w) ++ [1; 2; 3]%Z
  /\ trace (snd run)
     = trace w ++ [Invoke r; Print failure_fmt (ValidationError l1); Sleep 1;
                   Invoke r; Print failure_fmt (ValidationError l2); Sleep 2;
                   Invoke r; Print failure_fmt (ValidationError l3); Sleep 3].
Proof.
  intros Hall run r. subst run. unfold pii_extraction.
  rewrite (@retry_loop_failures endpoint float_repr parse_raw extraction_prompt
             (lit "Extract the PII from the following sentence: " ++ sentence)
             [l1; l2; l3] 0%Z 1%Z w) by (simpl; lia || exact Hall).
  rewrite retry_loop_exit by (simpl; lia).
  fold (extraction_request sentence). fold r.
  cbn [fst snd calls trace length failed_rounds Z.add Pos.add Pos.succ app].
  repeat split.
  - rewrite requests_app. reflexivity.
  - rewrite delays_app. reflexivity.
Qed.

(** C5. If the first, second or third attempt is reached (the attempts
    before it failed validation) and its response is schema-valid,
    [pii_extraction] returns the dict of the parsed record and stops: the
    call of that attempt is the last event, and the only delays are those
    that followed the earlier failures. *)
Theorem pii_extraction_returns_first_valid
  (endpoint : nat -> request -> reply) (float_repr : text -> text)
  (parse_raw : pyval -> result PII) (sentence : text) (w : world)
  (failures : list (list text)) (p : PII) :
  length failures < 3 ->
  all_fail endpoint float_repr parse_raw (calls w) (extraction_request sentence)
           failures ->
  validates endpoint float_repr parse_raw (calls w + length failures)
            (extraction_request sentence) p ->
  let run := pii_extraction endpoint float_repr parse_raw sentence w in
  let r := extraction_request sentence in
  fst run = Ok (PII_dict p)
  /\ calls (snd run) = calls w + length failures + 1
  /\ trace (snd run) = trace w ++ failed_rounds r 1 failures ++ [Invoke r]
  /\ requests (trace (snd run)) = requests (trace w) ++ repeat r (length failures + 1)
  /\ delays (trace (snd run))
     = delays (trace w) ++ map Z.of_nat (seq 1 (length failures)).
Proof.
  intros Hlen Hall Hvalid run r. subst run. unfold pii_extraction.
  rewrite (@retry_loop_failures endpoint float_repr parse_raw extraction_prompt
             (lit "Extract the PII from the following sentence: " ++ sentence)
             failures 0%Z 1%Z w) by (lia || exact Hall).
  fold (extraction_request sentence). fold r.
  rewrite retry_loop_enter by lia.
  rewrite (@attempt_validates endpoint float_repr parse_raw _ _ _ p)
    by exact Hvalid.
  fold (extraction_request sentence). fold r.
  unfold after_call. cbn [fst snd calls trace].
  repeat split.
  - lia.
  - rewrite <- app_assoc. reflexivity.
  - rewrite !requests_app, requests_failed_rounds, <- app_assoc.
    rewrite repeat_app. reflexivity.
  - rewrite !delays_app. change 1%Z with (Z.of_nat 1).
    rewrite delays_failed_rounds. cbn. rewrite app_nil_r. reflexivity.
Qed.

(** C6. If the remote call of the first, second or third attempt raises,
    [pii_extraction] raises that same error to its caller: the handler
    of validation failures does not run, there is no further call and no
    delay after it. *)
Theorem pii_extraction_transport_error_propagates
  (endpoint : nat -> request -> reply) (float_repr : text -> text)
  (parse_raw : pyval -> result PII) (sentence : text) (w : world)
  (failures : list (list text)) (detail : text) :
  length failures < 3 ->
  all_fail endpoint float_repr parse_raw (calls w) (extraction_request sentence)
           failures ->
  transport_fails endpoint (calls w + length failures)
                  (extraction_request sentence) detail ->
  let run := pii_extraction endpoint float_repr parse_raw sentence w in
  let r := extraction_request sentence in
  fst run = Raise (TransportError detail)
  /\ calls (snd run) = calls w + length failures + 1
  /\ trace (snd run) = trace w ++ failed_rounds r 1 failures ++ [Invoke r]
  /\ delays (trace (snd run))
     = delays (trace w) ++ map Z.of_nat (seq 1 (length failures)).
Proof.
  intros Hlen Hall Hfail run r. subst run. unfold pii_extraction.
  rewrite (@retry_loop_failures endpoint float_repr parse_raw extraction_prompt
             (lit "Extract the PII from the following sentence: " ++ sentence)
             failures 0%Z 1%Z w) by (lia || exact Hall).
  fold (extraction_request sentence). fold r.
  rewrite retry_loop_enter by lia.
  rewrite (@attempt_transport_fails endpoint float_repr parse_raw _ _ _ detail)
    by exact Hfail.
  fold (extraction_request sentence). fold r.
  unfold after_call. cbn [fst snd calls trace].
  repeat split.
  - lia.
  - rewrite <- app_assoc. reflexivity.
  - rewrite !delays_app. change 1%Z with (Z.of_nat 1).
    rewrite delays_failed_rounds. cbn. rewrite app_nil_r. reflexivity.
Qed.


(** C3, as the code has it.  The attempts of a run are made one after the
    other, each after the ones before it failed validation, and there are
    at most three.  When none of them raises an error other than a
    validation failure, the run returns one value: the dict of the record
    of the first valid response, or the failure marker after three
    failures, and never both.  When one of them raises another error (a
    transport error, for one), the run raises that error, returns no
    value and makes no further call. *)
Theorem pii_extraction_one_outcome
  (endpoint : nat -> request -> reply) (float_repr : text -> text)
  (parse_raw : pyval -> result PII) (sentence : text) (w : world) :
  let run := pii_extraction endpoint float_repr parse_raw sentence w in
  let r := extraction_request sentence in
  ((forall failures e,
       length failures < 3 ->
       all_fail endpoint float_repr parse_raw (calls w) r failures ->
       ~ raises_error endpoint float_repr parse_raw (calls w + length failures) r e) ->
   (exists failures p,
       length failures < 3
       /\ all_fail endpoint float_repr parse_raw (calls w) r failures
       /\ validates endpoint float_repr parse_raw (calls w + length failures) r p
       /\ fst run = Ok (PII_dict p)
       /\ fst run <> Ok error_dict
       /\ calls (snd run) = calls w + length failures + 1)
   \/ (exists l1 l2 l3,
         all_fail endpoint float_repr parse_raw (calls w) r [l1; l2; l3]
         /\ fst run = Ok error_dict
         /\ (forall p, fst run <> Ok (PII_dict p))
         /\ calls (snd run) = calls w + 3))
  /\ (forall failures e,
        length failures < 3 ->
        all_fail endpoint float_repr parse_raw (calls w) r failures ->
        raises_error endpoint float_repr parse_raw (calls w + length failures) r e ->
        fst run = Raise e
        /\ (forall d, fst run <> Ok d)
        /\ calls (snd run) = calls w + length failures + 1
        /\ trace (snd run) = trace w ++ failed_rounds r 1 failures ++ [Invoke r]).
Proof.
  intros run r. split.
  - intros Hnone.
    destruct (pii_extraction_cases endpoint float_repr parse_raw sentence w)
      as [failures [Hall Hcases]].
    cbn zeta in Hcases. fold run in Hcases. fold r in Hall, Hcases.
    destruct Hcases as [[Hk Hrun] | [[Hk [p [Hp Hrun]]] | [Hk [e [He Hrun]]]]].
    + right.
      destruct failures as [|l1 [|l2 [|l3 [|l4 more]]]]; try discriminate Hk.
      exists l1, l2, l3. rewrite Hrun. cbn [fst snd calls length].
      split; [exact Hall |]. split; [reflexivity |]. split; [| reflexivity].
      intros p Heq. assert (E : error_dict = PII_dict p) by congruence.
      exact (error_dict_is_no_record E).
    + left. exists failures, p. rewrite Hrun. unfold after_call.
      cbn [fst snd calls].
      split; [exact Hk |]. split; [exact Hall |]. split; [exact Hp |].
      split; [reflexivity |]. split; [| lia].
      intros Heq. assert (E : error_dict = PII_dict p) by congruence.
      exact (error_dict_is_no_record E).
    + exfalso. exact (Hnone failures e Hk Hall He).
  - intros failures e Hlen Hall He. subst run. unfold pii_extraction.
    rewrite (@retry_loop_failures endpoint float_repr parse_raw extraction_prompt
               (lit "Extract the PII from the following sentence: " ++ sentence)
               failures 0%Z 1%Z w) by (lia || exact Hall).
    fold (extraction_request sentence). fold r.
    rewrite (@retry_loop_raises endpoint float_repr parse_raw extraction_prompt
               (lit "Extract the PII from the following sentence: " ++ sentence)
               _ _ _ e); [| lia | exact He].
    fold (extraction_request sentence). fold r.
    unfold after_call. cbn [fst snd calls trace].
    split; [reflexivity |]. split; [intros d Hd; discriminate Hd |].
    split; [lia | rewrite <- app_assoc; reflexivity].
Qed.

(** C10. A value returned by [pii_extraction] is a dict of one of two
    kinds.  After a valid response it is the dict of the parsed record:
    its keys are the seven field names, each once, and a field the record
    does not hold is mapped to [None].  After three failures it is the
    failure marker, whose only key is error.  No field name is the key
    error, so the keys tell the two apart. *)
Theorem pii_extraction_result_keys
  (endpoint : nat -> request -> reply) (float_repr : text -> text)
  (parse_raw : pyval -> result PII) (sentence : text) (w : world) (d : pydict) :
  fst (pii_extraction endpoint float_repr parse_raw sentence w) = Ok d ->
  let r := extraction_request sentence in
  ((exists failures p,
       length failures < 3
       /\ all_fail endpoint float_repr parse_raw (calls w) r failures
       /\ validates endpoint float_repr parse_raw (calls w + length failures) r p
       /\ d = [(lit "explanation", pyval_of_field (explanation p));
               (lit "name", pyval_of_field (name p));
               (lit "number", pyval_of_field (number p));
               (lit "email", pyval_of_field (email p));
               (lit "address", pyval_of_field (address p));
               (lit "social_security_number",
                 pyval_of_field (social_security_number p));
               (lit "credit_card_number", pyval_of_field (credit_card_number p))]
       /\ keys d = PII_fields)
   \/ (exists failures,
         length failures = 3
         /\ all_fail endpoint float_repr parse_raw (calls w) r failures
         /\ d = error_dict
         /\ keys d = [lit "error"]))
  /\ pyval_of_field None = PNone
  /\ NoDup PII_fields
  /\ (forall k, In k PII_fields -> ~ In k [lit "error"]).
Proof.
  intros Hd r. split; [| split; [reflexivity | split]].
  - destruct (pii_extraction_cases endpoint float_repr parse_raw sentence w)
      as [failures [Hall Hcases]].
    cbn zeta in Hcases. fold r in Hall, Hcases.
    destruct Hcases as [[Hk Hrun] | [[Hk [p [Hp Hrun]]] | [Hk [e [He Hrun]]]]];
      rewrite Hrun in Hd; cbn [fst] in Hd.
    + injection Hd as <-. right. exists failures. repeat split; assumption.
    + injection Hd as <-. left. exists failures, p.
      repeat split; assumption.
    + discriminate Hd.
  - unfold PII_fields.
    repeat (constructor; [cbn [In]; intros H; repeat destruct H as [H|H];
                          try discriminate H; try contradiction |]).
    constructor.
  - intros k Hk Herr. cbn [In] in Herr. destruct Herr as [<- | []].
    unfold PII_fields in Hk. cbn [In] in Hk.
    repeat destruct Hk as [Hk|Hk]; try discriminate Hk. contradiction.
Qed.

Lemma refusing_all_fail :
  all_fail refusing literal_repr (PII_parse_raw literal_repr) (calls fresh)
           (extraction_request ssn_sentence) [root; root; root].
Proof.
  repeat split;
    (exists (PStr refusal); split;
     [eexists; split; [reflexivity | vm_compute; reflexivity]
     | vm_compute; reflexivity]).
Defined.

Lemma second_time_first_fails :
  all_fail second_time literal_repr (PII_parse_raw literal_repr) (calls fresh)
           (extraction_request ssn_sentence) [root].
Proof.
  repeat split.
  exists (PStr refusal). split;
    [eexists; split; [reflexivity | vm_compute; reflexivity]
    | vm_compute; reflexivity].
Defined.

Lemma dropped_first_fails :
  all_fail dropped literal_repr (PII_parse_raw literal_repr) (calls fresh)
           (extraction_request ssn_sentence) [root].
Proof.
  repeat split.
  exists (PStr refusal). split;
    [eexists; split; [reflexivity | vm_compute; reflexivity]
    | vm_compute; reflexivity].
Defined.

Lemma second_time_validates :
  validates second_time literal_repr (PII_parse_raw literal_repr)
            (calls fresh + length [root]) (extraction_request ssn_sentence)
            email_record.
Proof.
  exists (PStr email_example). split;
    [eexists; split; [reflexivity | vm_compute; reflexivity]
    | vm_compute; reflexivity].
Defined.

(** The claim C1 fails on the code: with three refusals the run ends in
    the failure marker after three calls, but the delays are 1, 2 and 3
    seconds, not 1 and 2: the third failure is followed by a delay of 3
    seconds, the last thing the run does before it returns. *)
Lemma third_failure_is_followed_by_a_delay :
  all_fail refusing literal_repr (PII_parse_raw literal_repr) 0
           (extraction_request ssn_sentence) [root; root; root]
  /\ fst refused_run = Ok error_dict
  /\ calls (snd refused_run) = 3
  /\ delays (trace (snd refused_run)) = [1; 2; 3]%Z
  /\ delays (trace (snd refused_run)) <> [1; 2]%Z
  /\ last (trace (snd refused_run)) (Sleep 0) = Sleep 3.
Proof.
  split; [exact refusing_all_fail |].
  assert (H : delays (trace (snd refused_run)) = [1; 2; 3]%Z)
    by (vm_compute; reflexivity).
  repeat split; try (vm_compute; reflexivity).
  rewrite H. discriminate.
Qed.

(** C1 as amended, on the three refusals. *)
Lemma pii_extraction_three_failures_witness :
  all_fail refusing literal_repr (PII_parse_raw literal_repr) (calls fresh)
           (extraction_request ssn_sentence) [root; root; root]
  /\ fst refused_run = Ok error_dict
  /\ delays (trace (snd refused_run)) = delays (trace fresh) ++ [1; 2; 3]%Z.
Proof.
  split; [exact refusing_all_fail |].
  destruct (@pii_extraction_three_failures refusing literal_repr
              (PII_parse_raw literal_repr) ssn_sentence fresh root root root
              refusing_all_fail) as [Hres [_ [_ [Hdelays _]]]].
  split; [exact Hres | exact Hdelays].
Defined.

(** C5 on a refusal followed by the email example. *)
Lemma pii_extraction_returns_first_valid_witness :
  length [root] < 3
  /\ fst second_time_run = Ok (PII_dict email_record)
  /\ calls (snd second_time_run) = 2
  /\ delays (trace (snd second_time_run)) = [1%Z].
Proof.
  split; [cbn; lia |].
  destruct (@pii_extraction_returns_first_valid second_time literal_repr
              (PII_parse_raw literal_repr) ssn_sentence fresh [root] email_record
              ltac:(cbn; lia) second_time_first_fails second_time_validates)
    as [Hres [Hcalls [_ [_ Hdelays]]]].
  split; [exact Hres | split; [exact Hcalls | exact Hdelays]].
Defined.

(** C6 on a refusal followed by a call that raises. *)
Lemma pii_extraction_transport_error_propagates_witness :
  transport_fails dropped (calls fresh + length [root])
                  (extraction_request ssn_sentence) (lit "EndpointConnectionError")
  /\ fst dropped_run = Raise (TransportError (lit "EndpointConnectionError"))
  /\ calls (snd dropped_run) = 2
  /\ delays (trace (snd dropped_run)) = [1%Z].
Proof.
  assert (Hfail : transport_fails dropped (calls fresh + length [root])
                    (extraction_request ssn_sentence)
                    (lit "EndpointConnectionError")) by reflexivity.
  split; [exact Hfail |].
  destruct (@pii_extraction_transport_error_propagates dropped literal_repr
              (PII_parse_raw literal_repr) ssn_sentence fresh [root]
              (lit "EndpointConnectionError")
              ltac:(cbn; lia) dropped_first_fails Hfail)
    as [Hres [Hcalls [_ Hdelays]]].
  split; [exact Hres | split; [exact Hcalls | exact Hdelays]].
Defined.



(** The claim C3 fails on the code: when the endpoint is out of reach the
    run makes one call and raises the transport error; it returns neither
    a record nor the failure marker. *)
Lemma transport_error_leaves_no_outcome :
  fst unreachable_run = Raise (TransportError (lit "EndpointConnectionError"))
  /\ calls (snd unreachable_run) = 1
  /\ (forall p, fst unreachable_run <> Ok (PII_dict p))
  /\ fst unreachable_run <> Ok error_dict
  /\ (forall d, fst unreachable_run <> Ok d).
Proof.
  assert (H : fst unreachable_run
              = Raise (TransportError (lit "EndpointConnectionError")))
    by (vm_compute; reflexivity).
  split; [exact H |]. split; [vm_compute; reflexivity |].
  rewrite H. repeat split; intros; discriminate.
Qed.

Lemma refusing_never_raises (k : nat) (e : exception) :
  ~ raises_error refusing literal_repr (PII_parse_raw literal_repr) k
                 (extraction_request ssn_sentence) e.
Proof.
  intros [He [[d [Hd _]] | [[b [Hb Hc]] | [c [[b [Hb Hc]] Hp]]]]].
  - discriminate Hd.
  - injection Hb as <-. vm_compute in Hc. discriminate Hc.
  - injection Hb as <-. vm_compute in Hc. injection Hc as <-.
    vm_compute in Hp. injection Hp as <-. discriminate He.
Defined.

Lemma unreachable_raises :
  raises_error unreachable literal_repr (PII_parse_raw literal_repr)
               (calls fresh + length (@nil (list text)))
               (extraction_request ssn_sentence)
               (TransportError (lit "EndpointConnectionError")).
Proof.
  split; [reflexivity |]. left. eexists. split; reflexivity.
Defined.

(** C3 as amended, on the three refusals, where no attempt raises another
    error and the run returns the failure marker after three calls, and
    on the endpoint out of reach, where the first attempt raises and so
    does the run. *)
Lemma pii_extraction_one_outcome_witness :
  (forall failures e,
      length failures < 3 ->
      all_fail refusing literal_repr (PII_parse_raw literal_repr) (calls fresh)
               (extraction_request ssn_sentence) failures ->
      ~ raises_error refusing literal_repr (PII_parse_raw literal_repr)
                     (calls fresh + length failures)
                     (extraction_request ssn_sentence) e)
  /\ fst refused_run = Ok error_dict
  /\ calls (snd refused_run) = 3
  /\ fst unreachable_run = Raise (TransportError (lit "EndpointConnectionError"))
  /\ calls (snd unreachable_run) = 1.
Proof.
  assert (Hnone : forall failures e,
            length failures < 3 ->
            all_fail refusing literal_repr (PII_parse_raw literal_repr) (calls fresh)
                     (extraction_request ssn_sentence) failures ->
            ~ raises_error refusing literal_repr (PII_parse_raw literal_repr)
                           (calls fresh + length failures)
                           (extraction_request ssn_sentence) e)
    by (intros failures e _ _; apply refusing_never_raises).
  split; [exact Hnone |].
  destruct (pii_extraction_one_outcome refusing literal_repr
              (PII_parse_raw literal_repr) ssn_sentence fresh)
    as [Hreturns _].
  destruct (pii_extraction_one_outcome unreachable literal_repr
              (PII_parse_raw literal_repr) ssn_sentence fresh)
    as [_ Hraises].
  destruct (Hraises [] _ ltac:(cbn; lia) I unreachable_raises)
    as [Hres [_ [Hcalls _]]].
  destruct (Hreturns Hnone)
    as [[failures [p [_ [_ [_ [Hrec _]]]]]] | [l1 [l2 [l3 [_ [Hm [_ Hc]]]]]]].
  - exfalso. vm_compute in Hrec. discriminate Hrec.
  - split; [exact Hm |]. split; [exact Hc |]. split; [exact Hres | exact Hcalls].
Defined.

(** C10 on a refusal followed by the email example: the value returned
    has the seven field names as its keys. *)
Lemma pii_extraction_result_keys_witness :
  fst second_time_run = Ok (PII_dict email_record)
  /\ keys (PII_dict email_record) = PII_fields
  /\ ~ In (lit "error") (keys (PII_dict email_record)).
Proof.
  assert (Hrun : fst second_time_run = Ok (PII_dict email_record))
    by (vm_compute; reflexivity).
  split; [exact Hrun |].
  destruct (@pii_extraction_result_keys second_time literal_repr
              (PII_parse_raw literal_repr) ssn_sentence fresh
              (PII_dict email_record) Hrun)
    as [[[failures [p [_ [_ [_ [_ Hkeys]]]]]] | [failures [_ [_ [Herr _]]]]]
        [_ [_ Hdisjoint]]].
  - split; [exact Hkeys |].
    rewrite Hkeys. intros Hin. exact (Hdisjoint _ Hin (or_introl eq_refl)).
  - discriminate Herr.
Defined.

(* ===================================================================== *)
(** ** More on the classifier *)
(* ===================================================================== *)


Lemma pii_detection_run
  (endpoint : nat -> request -> reply) (float_repr : text -> text)
  (sentence : text) (w : world) :
  pii_detection endpoint float_repr sentence w
  = (match endpoint (calls w) (detection_request sentence) with
     | Body b =>
         match completion_of float_repr b with
         | Ok (PStr s) => Ok (startswith (strip s) (lit "True"))
         | Ok _ => Raise AttributeError
         | Raise e => Raise e
         end
     | Fails d => Raise (TransportError d)
     end, after_call (detection_request sentence) w).
Proof.
  unfold pii_detection, bind. rewrite query_run.
  change (request_of (detection_prompt
                      ++ (lit "Does the following sentence contain PII? " ++ sentence)
                      ++ nl ++ lit "AI: "))
    with (detection_request sentence).
  destruct (endpoint (calls w) (detection_request sentence)) as [b|d]; [|reflexivity].
  unfold lift. destruct (completion_of float_repr b) as [c|e]; [|reflexivity].
  destruct c; try reflexivity.
  unfold ret. destruct (startswith (strip s) (lit "True")); reflexivity.
Qed.


Lemma lstrip_all_spaces (ws : text) :
  Forall (fun c => isspace c = true) ws -> lstrip ws = [].
Proof.
  intros H. rewrite <- (app_nil_r ws). rewrite lstrip_spaces_app by exact H.
  reflexivity.
Qed.

Lemma rstrip_app_spaces (x ws : text) :
  Forall (fun c => isspace c = true) ws -> rstrip (x ++ ws) = rstrip x.
Proof.
  intros H. unfold rstrip. rewrite rev_app_distr.
  rewrite lstrip_spaces_app by (apply Forall_rev; exact H). reflexivity.
Qed.

Lemma lstrip_app_spaces (r ws : text) :
  Forall (fun c => isspace c = true) ws ->
  lstrip (r ++ ws) = lstrip r ++ ws \/ (lstrip r = [] /\ lstrip (r ++ ws) = []).
Proof.
  intros H. induction r as [|c r IH]; simpl.
  - right. split; [reflexivity | apply lstrip_all_spaces; exact H].
  - destruct (isspace c); [exact IH | left; reflexivity].
Qed.

(** Whitespace around a text does not change what [strip] makes of it. *)
Lemma strip_surrounding_whitespace (ws1 r ws2 : text) :
  Forall (fun c => isspace c = true) ws1 ->
  Forall (fun c => isspace c = true) ws2 ->
  strip (ws1 ++ r ++ ws2) = strip r.
Proof.
  intros H1 H2. unfold strip. rewrite lstrip_spaces_app by exact H1.
  destruct (lstrip_app_spaces r H2) as [-> | [-> ->]].
  - apply rstrip_app_spaces. exact H2.
  - reflexivity.
Qed.

(** X2. The verdict of [pii_detection] does not depend on whitespace
    around the model's response, and a positive verdict stays positive
    whatever text follows the response. *)
Theorem pii_detection_ignores_surroundings
  (endpoint endpoint' : nat -> request -> reply) (float_repr : text -> text)
  (sentence sentence' : text) (w w' : world) (r r' : text) :
  responds endpoint float_repr (calls w) (detection_request sentence) (PStr r) ->
  responds endpoint' float_repr (calls w') (detection_request sentence') (PStr r') ->
  ((exists ws1 ws2,
       Forall (fun c => isspace c = true) ws1
       /\ Forall (fun c => isspace c = true) ws2
       /\ r' = ws1 ++ r ++ ws2) ->
   fst (pii_detection endpoint' float_repr sentence' w')
   = fst (pii_detection endpoint float_repr sentence w))
  /\ ((exists more, r' = r ++ more) ->
      fst (pii_detection endpoint float_repr sentence w) = Ok true ->
      fst (pii_detection endpoint' float_repr sentence' w') = Ok true).
Proof.
  intros [b [Hb Hc]] [b' [Hb' Hc']].
  rewrite !pii_detection_run, Hb, Hc, Hb', Hc'. cbn [fst].
  split.
  - intros [ws1 [ws2 [H1 [H2 ->]]]].
    rewrite strip_surrounding_whitespace by assumption. reflexivity.
  - intros [more ->] H. injection H as H.
    apply strip_startswith_True in H. destruct H as [ws [rest [Hws ->]]].
    f_equal. apply strip_startswith_True.
    exists ws, (rest ++ more). split; [exact Hws |].
    rewrite <- !app_assoc. reflexivity.
Qed.

(* ===================================================================== *)
(** ** More on the extractor *)
(* ===================================================================== *)

Lemma parse_raw_not_text (float_repr : text -> text) (c : pyval) :
  (forall s, c <> PStr s) -> PII_parse_raw float_repr c = Raise (ValidationError root).
Proof.
  intros H. destruct c; try reflexivity. contradiction (H s eq_refl).
Qed.

(** X3. An answer whose completion is not a text (the key is missing, or
    holds null, a number, a list) is handled differently by the two
    functions: [pii_detection] raises an attribute error, while
    [pii_extraction] takes it for a validation failure, and with three
    such answers retries twice, sleeps 1, 2 and 3 seconds and returns the
    failure marker. *)
Theorem completion_that_is_not_text
  (endpoint : nat -> request -> reply) (float_repr : text -> text)
  (sentence : text) (w : world) :
  (forall k r, calls w <= k < calls w + 3 ->
               exists c, responds endpoint float_repr k r c
                         /\ forall s, c <> PStr s) ->
  fst (pii_detection endpoint float_repr sentence w) = Raise AttributeError
  /\ calls (snd (pii_detection endpoint float_repr sentence w)) = calls w + 1
  /\ fst (pii_extraction endpoint float_repr (PII_parse_raw float_repr) sentence w)
     = Ok error_dict
  /\ calls (snd (pii_extraction endpoint float_repr (PII_parse_raw float_repr)
                                sentence w)) = calls w + 3
  /\ delays (trace (snd (pii_extraction endpoint float_repr
                                        (PII_parse_raw float_repr) sentence w)))
     = delays (trace w) ++ [1; 2; 3]%Z.
Proof.
  intros H.
  assert (Hfail : forall k r, calls w <= k < calls w + 3 ->
            fails_validation endpoint float_repr (PII_parse_raw float_repr) k r root).
  { intros k r Hk. destruct (H k r Hk) as [c [Hc Hnot]].
    exists c. split; [exact Hc | apply parse_raw_not_text; exact Hnot]. }
  split; [| split].
  - rewrite pii_detection_run. cbn [fst].
    destruct (H (calls w) (detection_request sentence) ltac:(lia))
      as [c [[b [Hb Hc]] Hnot]].
    rewrite Hb, Hc. destruct c; try reflexivity. contradiction (Hnot s eq_refl).
  - rewrite pii_detection_run. cbn [snd after_call calls]. lia.
  - unfold pii_extraction.
    rewrite (@retry_loop_failures endpoint float_repr (PII_parse_raw float_repr)
               extraction_prompt
               (lit "Extract the PII from the following sentence: " ++ sentence)
               [root; root; root] 0%Z 1%Z w).
    + rewrite retry_loop_exit by (simpl; lia).
      cbn [fst snd calls trace length failed_rounds Z.add Pos.add Pos.succ app].
      repeat split. rewrite delays_app. reflexivity.
    + simpl; lia.
    + cbn [all_fail]. repeat split; apply Hfail; lia.
Qed.

(** What a run of [pii_extraction] costs, in calls and in delays. *)
Lemma pii_extraction_cost
  (endpoint : nat -> request -> reply) (float_repr : text -> text)
  (parse_raw : pyval -> result PII) (sentence : text) (w : world) :
  let run := pii_extraction endpoint float_repr parse_raw sentence w in
  let r := extraction_request sentence in
  exists k n,
    1 <= k <= 3
    /\ calls (snd run) = calls w + k
    /\ requests (trace (snd run)) = requests (trace w) ++ repeat r k
    /\ delays (trace (snd run)) = delays (trace w) ++ map Z.of_nat (seq 1 n)
    /\ (sum_Z (map Z.of_nat (seq 1 n)) <= 6)%Z
    /\ (fst run = Ok error_dict -> k = 3 /\ n = 3)
    /\ (fst run <> Ok error_dict -> n = k - 1).
Proof.
  intros run r.
  destruct (pii_extraction_cases endpoint float_repr parse_raw sentence w)
    as [failures [_ Hcases]].
  cbn zeta in Hcases. fold run in Hcases. fold r in Hcases.
  assert (Hsum : forall n, n <= 3 -> (sum_Z (map Z.of_nat (seq 1 n)) <= 6)%Z).
  { intros n Hn. destruct n as [|[|[|[|n]]]]; cbn; lia. }
  destruct Hcases as [[Hk Hrun] | [[Hk [p [_ Hrun]]] | [Hk [e [_ Hrun]]]]];
    rewrite Hrun; cbn [fst snd calls trace after_call].
  - exists 3, 3. rewrite Hk.
    split; [lia |]. split; [reflexivity |].
    split; [rewrite requests_app, requests_failed_rounds, Hk; reflexivity |].
    split; [rewrite delays_app; change 1%Z with (Z.of_nat 1);
            rewrite delays_failed_rounds, Hk; reflexivity |].
    split; [apply Hsum; lia |].
    split; [intros _; split; reflexivity |].
    intros H. contradiction H. reflexivity.
  - exists (S (length failures)), (length failures).
    split; [lia |]. split; [lia |].
    split; [rewrite !requests_app, requests_failed_rounds, <- app_assoc;
            replace (S (length failures)) with (length failures + 1) by lia;
            rewrite repeat_app; reflexivity |].
    split; [rewrite !delays_app; change 1%Z with (Z.of_nat 1);
            rewrite delays_failed_rounds; cbn; rewrite app_nil_r; reflexivity |].
    split; [apply Hsum; lia |].
    split; [| intros _; lia].
    intros H. assert (H' : error_dict = PII_dict p) by congruence.
    contradiction (error_dict_is_no_record H').
  - exists (S (length failures)), (length failures).
    split; [lia |]. split; [lia |].
    split; [rewrite !requests_app, requests_failed_rounds, <- app_assoc;
            replace (S (length failures)) with (length failures + 1) by lia;
            rewrite repeat_app; reflexivity |].
    split; [rewrite !delays_app; change 1%Z with (Z.of_nat 1);
            rewrite delays_failed_rounds; cbn; rewrite app_nil_r; reflexivity |].
    split; [apply Hsum; lia |].
    split; [intros H; discriminate H | intros _; lia].
Qed.

(** X4. Bounds on every run of [pii_extraction], whatever the endpoint and
    the parser do: it makes between one and three remote calls, all with
    the same request; the delays are the first [n] of 1, 2, 3 seconds,
    with [n] one less than the number of calls unless the run ends with
    the failure marker, where it is 3; so a run never sleeps more than 6
    seconds, and sleeps 3 seconds at a time only before giving up. *)
Theorem pii_extraction_bounds
  (endpoint : nat -> request -> reply) (float_repr : text -> text)
  (parse_raw : pyval -> result PII) (sentence : text) (w : world) :
  let run := pii_extraction endpoint float_repr parse_raw sentence w in
  let r := extraction_request sentence in
  exists k n,
    1 <= k <= 3
    /\ calls (snd run) = calls w + k
    /\ requests (trace (snd run)) = requests (trace w) ++ repeat r k
    /\ delays (trace (snd run)) = delays (trace w) ++ map Z.of_nat (seq 1 n)
    /\ (sum_Z (map Z.of_nat (seq 1 n)) <= 6)%Z
    /\ (fst run = Ok error_dict -> k = 3 /\ n = 3)
    /\ (fst run <> Ok error_dict -> n = k - 1).
Proof. apply pii_extraction_cost. Qed.

(* ===================================================================== *)
(** ** More on the PII record *)
(* ===================================================================== *)


(** X7. A record and its [dict()] determine each other: validating the
    dict of a record gives the record back, and two records with the same
    dict are the same record. *)
Theorem PII_dict_round_trip (p : PII) :
  PII_parse_obj (PDict (PII_dict p)) = Ok p
  /\ forall p', PII_dict p = PII_dict p' -> p = p'.
Proof.
  assert (H : forall q, PII_parse_obj (PDict (PII_dict q)) = Ok q).
  { intros [[e|] [n|] [u|] [m|] [a|] [s|] [c|]]; reflexivity. }
  split; [apply H |].
  intros p' E. pose proof (H p) as Hp. rewrite E, H in Hp. congruence.
Qed.

(* ===================================================================== *)
(** ** json.loads after json.dumps *)
(* ===================================================================== *)

Lemma hex_digit_hex_char (d : N) : (d < 16)%N -> hex_digit (hex_char d) = Some d.
Proof.
  intros H. destruct d as [|p]; [reflexivity |].
  do 4 (try destruct p as [p|p|]); try reflexivity; exfalso; lia.
Qed.

Lemma hex4_digits (c : N) (rest : text) :
  (c < 65536)%N ->
  hex4 (hex_char (c / 4096 mod 16) :: hex_char (c / 256 mod 16)
        :: hex_char (c / 16 mod 16) :: hex_char (c mod 16) :: rest)
  = Some (c, rest).
Proof.
  intros H. unfold hex4.
  rewrite !hex_digit_hex_char by (apply N.mod_lt; discriminate).
  pose proof (N.div_mod c 16 ltac:(discriminate)) as E0.
  pose proof (N.div_mod (c / 16) 16 ltac:(discriminate)) as E1.
  pose proof (N.div_mod (c / 16 / 16) 16 ltac:(discriminate)) as E2.
  pose proof (N.div_mod (c / 16 / 16 / 16) 16 ltac:(discriminate)) as E3.
  change 4096%N with (16 * 16 * 16)%N. change 256%N with (16 * 16)%N.
  rewrite <- !N.Div0.div_div.
  assert (H3 : (c / 16 / 16 / 16 / 16 = 0)%N).
  { rewrite !N.Div0.div_div. apply N.div_small. exact H. }
  generalize dependent (c / 16 / 16 / 16 / 16)%N. intros q4 E3 H3.
  generalize dependent ((c / 16 / 16 / 16) mod 16)%N. intros m3 E3.
  generalize dependent (c / 16 / 16 / 16)%N. intros q3 E2 E3.
  generalize dependent ((c / 16 / 16) mod 16)%N. intros m2 E2.
  generalize dependent (c / 16 / 16)%N. intros q2 E1 E2.
  generalize dependent ((c / 16) mod 16)%N. intros m1 E1.
  generalize dependent (c / 16)%N. intros q1 E0 E1.
  generalize dependent (c mod 16)%N. intros m0 E0.
  replace ((((m3 * 16 + m2) * 16 + m1) * 16 + m0)%N) with c by lia.
  reflexivity.
Qed.

Lemma encode_char_default (c : N) :
  escaped c = false ->
  encode_char c
  = if ((32 <=? c) && (c <=? 126))%N then [c]
    else if (c <? 65536)%N then u_escape c
    else let v := (c - 65536)%N in
         u_escape (55296 + (v / 1024) mod 1024) ++ u_escape (56320 + v mod 1024).
Proof.
  intros H. destruct c as [|p]; [reflexivity |].
  do 7 (try destruct p as [p|p|]); try reflexivity; discriminate H.
Qed.

Lemma scanstring_u_escape (f : nat) (c : N) (tail acc : text) :
  (c < 65536)%N -> is_high_surrogate c = false ->
  scanstring (S f) (u_escape c ++ tail) acc = scanstring f tail (c :: acc).
Proof.
  intros Hc Hs. unfold u_escape. cbn [app scanstring N.eqb Pos.eqb].
  rewrite hex4_digits by exact Hc. rewrite Hs. reflexivity.
Qed.

Lemma scanstring_step (f : nat) (c : N) (tail acc : text) :
  scalar c = true -> tail <> [] ->
  scanstring (S f) (encode_char c ++ tail) acc = scanstring f tail (c :: acc).
Proof.
  intros Hsc Htail. destruct (escaped c) eqn:He.
  { unfold escaped in He. rewrite !orb_true_iff, !N.eqb_eq in He.
    destruct He as [[[[[[-> | ->] | ->] | ->] | ->] | ->] | ->]; reflexivity. }
  rewrite (encode_char_default _ He).
  unfold escaped in He. rewrite !orb_false_iff, !N.eqb_neq in He.
  destruct He as [[[[[[H34 H92] _] _] _] _] _].
  unfold scalar in Hsc.
  destruct ((32 <=? c) && (c <=? 126))%N eqn:Hp.
  - apply andb_true_iff in Hp. destruct Hp as [Hlo Hhi].
    apply N.leb_le in Hlo, Hhi.
    cbn [app scanstring].
    rewrite (proj2 (N.eqb_neq c 34) H34), (proj2 (N.eqb_neq c 92) H92).
    rewrite (proj2 (N.leb_gt c 31)) by lia. reflexivity.
  - destruct (c <? 65536)%N eqn:Hbmp.
    + apply N.ltb_lt in Hbmp. apply scanstring_u_escape; [exact Hbmp |].
      unfold is_high_surrogate.
      apply orb_true_iff in Hsc. destruct Hsc as [H | H].
      * apply N.ltb_lt in H. rewrite (proj2 (N.leb_gt 55296 c)) by lia. reflexivity.
      * apply andb_true_iff in H. destruct H as [H _]. apply N.ltb_lt in H.
        rewrite (proj2 (N.leb_gt c 56319)) by lia. apply andb_false_r.
    + apply N.ltb_ge in Hbmp.
      assert (Hmax : (c < 1114112)%N).
      { apply orb_true_iff in Hsc. destruct Hsc as [H | H].
        - apply N.ltb_lt in H. lia.
        - apply andb_true_iff in H. destruct H as [_ H]. apply N.ltb_lt in H. exact H. }
      cbn zeta.
      set (v := (c - 65536)%N).
      assert (Hv : (v < 1048576)%N) by (unfold v; lia).
      assert (Hq : (v / 1024 < 1024)%N)
        by (apply N.Div0.div_lt_upper_bound; lia).
      assert (Hm : (v mod 1024 < 1024)%N) by (apply N.mod_lt; discriminate).
      assert (Hqm : ((v / 1024) mod 1024 = v / 1024)%N) by (apply N.mod_small; exact Hq).
      pose proof (N.div_mod v 1024 ltac:(discriminate)) as Ev.
      rewrite Hqm.
      assert (Hcv : (c = v + 65536)%N) by (unfold v; lia).
      set (q := (v / 1024)%N) in *. set (m := (v mod 1024)%N) in *.
      clearbody q m. clearbody v.
      set (hi := (55296 + q)%N). set (lo := (56320 + m)%N).
      assert (Hhi : (55296 <= hi <= 56319)%N) by (unfold hi; lia).
      assert (Hlo : (56320 <= lo <= 57343)%N) by (unfold lo; lia).
      rewrite <- app_assoc.
      unfold u_escape at 1. cbn [app scanstring N.eqb Pos.eqb].
      rewrite hex4_digits by lia.
      assert (Hh : is_high_surrogate hi = true).
      { unfold is_high_surrogate. apply andb_true_iff. split; apply N.leb_le; lia. }
      rewrite Hh.
      assert (Hlen : (7 <=? length (u_escape lo ++ tail)) = true).
      { apply Nat.leb_le. rewrite length_app. unfold u_escape. cbn [length].
        destruct tail; [contradiction Htail; reflexivity | cbn; lia]. }
      rewrite Hlen.
      unfold u_escape. cbn [app startswith N.eqb Pos.eqb andb skipn].
      rewrite hex4_digits by lia.
      assert (Hl : is_low_surrogate lo = true).
      { unfold is_low_surrogate. apply andb_true_iff. split; apply N.leb_le; lia. }
      rewrite Hl.
      replace (join_surrogates hi lo) with c; [reflexivity |].
      unfold join_surrogates, hi, lo. lia.
Qed.

(** A string body as [json.dumps] writes it is scanned back to the text,
    whatever follows the closing quote. *)
Lemma scanstring_encoded (s : text) :
  scalar_text s ->
  forall (f : nat) (rest acc : text),
    length s < f ->
    scanstring f (flat_map encode_char s ++ 34%N :: rest) acc
    = Some (rev acc ++ s, rest).
Proof.
  induction 1 as [|c s Hc _ IH]; intros f rest acc Hf.
  - destruct f; [cbn in Hf; lia |]. cbn. rewrite app_nil_r. reflexivity.
  - destruct f; [cbn in Hf; lia |]. cbn [flat_map length] in *.
    rewrite <- app_assoc.
    rewrite scanstring_step; [| exact Hc | ].
    + rewrite IH by lia. cbn [rev]. rewrite <- app_assoc. reflexivity.
    + destruct (flat_map encode_char s); discriminate.
Qed.

Lemma encode_char_not_empty (c : N) : encode_char c <> [].
Proof.
  destruct (escaped c) eqn:He.
  - unfold escaped in He. rewrite !orb_true_iff, !N.eqb_eq in He.
    destruct He as [[[[[[-> | ->] | ->] | ->] | ->] | ->] | ->]; discriminate.
  - rewrite (encode_char_default _ He).
    destruct ((32 <=? c) && (c <=? 126))%N; [discriminate |].
    destruct (c <? 65536)%N; discriminate.
Qed.

Lemma length_encoded (s : text) : length s <= length (flat_map encode_char s).
Proof.
  induction s as [|c s IH]; [cbn; lia |].
  cbn [flat_map length]. rewrite length_app.
  pose proof (encode_char_not_empty c) as H.
  destruct (encode_char c); [contradiction H; reflexivity | cbn [length]; lia].
Qed.

Lemma encode_string_cons (s rest : text) :
  encode_string s ++ rest = 34%N :: flat_map encode_char s ++ 34%N :: rest.
Proof.
  unfold encode_string, dq. cbn [app]. rewrite <- app_assoc. reflexivity.
Qed.

Section RoundTrip.

Variable float_repr : text -> text.

(** A plain value as [json.dumps] writes it is read back by the scanner,
    whatever follows it. *)
Lemma scan_once_plain (v : pyval) (f : nat) (rest : text) :
  plain v -> scan_once float_repr (S f) (json_dumps v ++ rest) = Some (v, rest).
Proof.
  destruct v as [ | [|] | | | s | | ]; cbn [plain]; intros H; try contradiction;
    try reflexivity.
  cbn [json_dumps]. rewrite encode_string_cons. cbn [scan_once N.eqb Pos.eqb].
  rewrite scanstring_encoded; [reflexivity | exact H |].
  rewrite length_app. pose proof (length_encoded s). cbn [length]. lia.
Qed.

Lemma skip_ws_plain (v : pyval) (rest : text) :
  plain v -> skip_ws (json_dumps v ++ rest) = json_dumps v ++ rest.
Proof.
  destruct v as [ | [|] | | | s | | ]; cbn [plain]; intros H; try contradiction;
    reflexivity.
Qed.

Lemma json_dumps_dict (entries : pydict) :
  json_dumps (PDict entries) = lit "{" ++ join_comma (map entry_text entries) ++ lit "}".
Proof. reflexivity. Qed.

Lemma parse_members_entry (f : nat) (k : text) (v : pyval) (tail : text) (d : pydict) :
  scalar_text k -> plain v ->
  parse_members float_repr (S (S f)) (entry_text (k, v) ++ tail) d
  = (let d' := dict_set k v d in
     let r3' := skip_ws tail in
     if startswith r3' [125%N] then Some (PDict d', skipn 1 r3')
     else if startswith r3' [44%N]
          then parse_members float_repr (S f) (skip_ws (skipn 1 r3')) d'
          else None).
Proof.
  intros Hk Hv. unfold entry_text. cbn [fst snd].
  rewrite <- !app_assoc. rewrite encode_string_cons.
  cbn [parse_members startswith N.eqb Pos.eqb andb skipn].
  rewrite scanstring_encoded; [| exact Hk |].
  2:{ rewrite length_app. pose proof (length_encoded k). cbn [length]. lia. }
  change (lit ": " ++ json_dumps v ++ tail)
    with (58%N :: 32%N :: json_dumps v ++ tail).
  cbn [skip_ws is_json_ws N.eqb Pos.eqb orb startswith andb skipn].
  rewrite skip_ws_plain by exact Hv.
  rewrite scan_once_plain by exact Hv.
  cbn [rev app]. reflexivity.
Qed.

Lemma entry_text_head (kv : text * pyval) (tail : text) :
  exists t, entry_text kv ++ tail = 34%N :: t.
Proof.
  unfold entry_text. rewrite <- app_assoc, encode_string_cons. eauto.
Qed.

(** The entries of a flat object are read back one by one. *)
Lemma parse_members_entries (entries : pydict) :
  entries <> [] -> Forall plain_entry entries ->
  forall (f : nat) (d : pydict) (rest : text),
    length entries < f ->
    parse_members float_repr f (join_comma (map entry_text entries) ++ 125%N :: rest) d
    = Some (PDict (dict_of entries d), rest).
Proof.
  intros Hne Hall. induction Hall as [|[k v] entries [Hk Hv] Hrest IH];
    [contradiction Hne; reflexivity |].
  intros f d rest Hf. cbn [fst snd] in Hk, Hv.
  destruct f as [|[|f]]; try (cbn [length] in Hf; lia).
  destruct entries as [|kv2 more].
  - cbn [map join_comma]. rewrite parse_members_entry by assumption.
    reflexivity.
  - assert (Hhead : exists t, join_comma (map entry_text (kv2 :: more))
                              ++ 125%N :: rest = 34%N :: t).
    { cbn [map join_comma]. destruct (map entry_text more).
      - apply entry_text_head.
      - rewrite <- app_assoc. apply entry_text_head. }
    destruct Hhead as [t Ht].
    change (join_comma (map entry_text ((k, v) :: kv2 :: more)))
      with (entry_text (k, v) ++ lit ", "
            ++ join_comma (map entry_text (kv2 :: more))).
    specialize (IH ltac:(discriminate) (S f) (dict_set k v d) rest
                   ltac:(cbn [length] in *; lia)).
    set (T := join_comma (map entry_text (kv2 :: more))) in *.
    rewrite <- !app_assoc.
    rewrite parse_members_entry by assumption.
    change (lit ", " ++ T ++ 125%N :: rest) with (44%N :: 32%N :: T ++ 125%N :: rest).
    cbn [skip_ws is_json_ws N.eqb Pos.eqb orb startswith andb skipn].
    rewrite Ht. cbn [skip_ws is_json_ws N.eqb Pos.eqb orb]. rewrite <- Ht.
    rewrite IH. reflexivity.
Qed.

Lemma entries_text_length (entries : pydict) :
  length entries <= length (join_comma (map entry_text entries)).
Proof.
  induction entries as [|kv entries IH]; [cbn; lia |].
  destruct (entry_text_head kv []) as [t Ht]. rewrite app_nil_r in Ht.
  destruct entries as [|kv2 more].
  - cbn [map join_comma length]. rewrite Ht. cbn [length]. lia.
  - change (join_comma (map entry_text (kv :: kv2 :: more)))
      with (entry_text kv ++ lit ", " ++ join_comma (map entry_text (kv2 :: more))).
    rewrite !length_app, Ht. cbn [length] in *. lia.
Qed.

Lemma dict_get_dict_set_fresh (k : text) (v : pyval) (d : pydict) :
  ~ In k (keys d) -> dict_set k v d = d ++ [(k, v)].
Proof.
  induction d as [|[k' v'] d IH]; intros H; [reflexivity |].
  cbn [dict_set]. destruct (text_eqb k k') eqn:E.
  - apply text_eqb_eq in E. contradiction H. left. symmetry. exact E.
  - rewrite IH; [reflexivity |]. intros Hin. apply H. right. exact Hin.
Qed.

Lemma dict_of_distinct (entries : pydict) :
  forall d, NoDup (keys d ++ keys entries) -> dict_of entries d = d ++ entries.
Proof.
  induction entries as [|[k v] entries IH]; intros d H.
  - cbn. rewrite app_nil_r. reflexivity.
  - unfold dict_of. cbn [fold_left fst snd]. fold (dict_of entries (dict_set k v d)).
    cbn [keys map fst] in H.
    assert (Hk : ~ In k (keys d)).
    { apply NoDup_remove_2 in H. intros Hin. apply H. apply in_or_app. left. exact Hin. }
    rewrite dict_get_dict_set_fresh by exact Hk.
    rewrite IH.
    + rewrite <- app_assoc. reflexivity.
    + unfold keys in *. rewrite map_app. cbn [map fst]. rewrite <- app_assoc.
      exact H.
Qed.

(** A flat object of plain values with distinct keys is read back as it
    was written. *)
Lemma json_decode_flat_object (entries : pydict) :
  Forall plain_entry entries -> NoDup (keys entries) ->
  json_decode float_repr (json_dumps (PDict entries)) = Some (PDict entries).
Proof.
  intros Hall Hnd. destruct entries as [|kv more]; [reflexivity |].
  rewrite json_dumps_dict. unfold json_decode.
  set (T := join_comma (map entry_text (kv :: more))).
  assert (HT : exists t, T ++ lit "}" = 34%N :: t).
  { unfold T. cbn [map join_comma]. destruct (map entry_text more).
    - apply entry_text_head.
    - rewrite <- app_assoc. apply entry_text_head. }
  destruct HT as [t Ht].
  change (lit "{" ++ T ++ lit "}") with (123%N :: T ++ lit "}").
  cbn [skip_ws is_json_ws N.eqb Pos.eqb orb].
  replace (2 * length (123%N :: T ++ lit "}") + 1)
    with (S (2 * length (123%N :: T ++ lit "}"))) by lia.
  cbn [scan_once N.eqb Pos.eqb]. cbn zeta.
  rewrite Ht. cbn [skip_ws is_json_ws N.eqb Pos.eqb orb startswith andb].
  rewrite <- Ht. change (lit "}") with [125%N].
  pose proof (entries_text_length (kv :: more)) as Hlen.
  subst T.
  rewrite parse_members_entries; [| discriminate | exact Hall |].
  - cbn [skip_ws]. rewrite (dict_of_distinct _ []); [reflexivity | exact Hnd].
  - cbn [length] in *. rewrite length_app. lia.
Qed.

Lemma request_payload_decodes (prompt : text) :
  scalar_text prompt ->
  float_repr (lit "0.0") = lit "0.0" ->
  json_decode float_repr (json_dumps (request_payload prompt))
  = Some (request_payload prompt).
Proof.
  intros Hp Hfloat. unfold request_payload. rewrite json_dumps_dict.
  match goal with
  | |- context [join_comma (map entry_text (?e :: ?more))] =>
      change (join_comma (map entry_text (e :: more)))
        with (entry_text e ++ lit ", " ++ join_comma (map entry_text more));
      set (entry := entry_text e);
      set (T := join_comma (map entry_text more))
  end.
  destruct (entry_text_head (lit "prompt", PStr prompt)
                            (lit ", " ++ T ++ lit "}")) as [t Ht].
  fold entry in Ht.
  rewrite <- !app_assoc. unfold json_decode.
  change (lit "{" ++ entry ++ lit ", " ++ T ++ lit "}")
    with (123%N :: entry ++ lit ", " ++ T ++ lit "}").
  cbn [skip_ws is_json_ws N.eqb Pos.eqb orb].
  replace (2 * length (123%N :: entry ++ lit ", " ++ T ++ lit "}") + 1)
    with (S (2 * length (123%N :: entry ++ lit ", " ++ T ++ lit "}"))) by lia.
  cbn [scan_once N.eqb Pos.eqb]. cbn zeta.
  rewrite Ht. cbn [skip_ws is_json_ws N.eqb Pos.eqb orb startswith andb].
  rewrite <- Ht.
  set (tail := lit ", " ++ T ++ lit "}").
  assert (Htail : length tail = 81) by reflexivity.
  assert (Htail2 : length (skip_ws (skipn 1 tail)) = 79) by (vm_compute; reflexivity).
  rewrite (proj1 (proj2 (decode_fuel float_repr (length (entry ++ tail))))
             (entry ++ tail) []
             (2 * length (123%N :: entry ++ tail))
             (S (S (2 * length (entry ++ tail)))));
    [| lia | cbn [length]; lia | lia].
  subst entry. rewrite parse_members_entry; [| repeat constructor | exact Hp].
  cbn zeta.
  change (skip_ws tail) with tail.
  change (startswith tail [125%N]) with false.
  change (startswith tail [44%N]) with true. cbv iota.
  rewrite (proj1 (proj2 (decode_fuel float_repr 81))
             (skip_ws (skipn 1 tail)) _
             (S (2 * length (entry_text (lit "prompt", PStr prompt) ++ tail))) 200);
    [| rewrite Htail2; lia | | rewrite Htail2; lia].
  2:{ rewrite length_app, Htail, Htail2. lia. }
  vm_compute in Hfloat.
  match goal with
  | |- context [parse_members float_repr 200 ?s ?d] =>
      let r := eval vm_compute in (parse_members float_repr 200 s d) in
      assert (E : parse_members float_repr 200 s d = r)
        by (vm_compute; reflexivity);
      rewrite E; clear E
  end.
  rewrite Hfloat. reflexivity.
Qed.

Lemma hex_char_printable (d : N) : (d < 16)%N -> printable (hex_char d) = true.
Proof.
  intros H. unfold printable, hex_char.
  destruct (N.ltb_spec d 10); apply andb_true_iff; split; apply N.leb_le; lia.
Qed.

Lemma u_escape_printable (c : N) : forallb printable (u_escape c) = true.
Proof.
  unfold u_escape. cbn [forallb].
  rewrite !hex_char_printable by (apply N.mod_lt; discriminate).
  reflexivity.
Qed.

(** With [ensure_ascii] every character is written in printable ASCII. *)
Lemma encode_char_printable (c : N) : forallb printable (encode_char c) = true.
Proof.
  destruct (escaped c) eqn:He.
  - unfold escaped in He. rewrite !orb_true_iff, !N.eqb_eq in He.
    destruct He as [[[[[[-> | ->] | ->] | ->] | ->] | ->] | ->]; reflexivity.
  - rewrite (encode_char_default _ He).
    destruct ((32 <=? c) && (c <=? 126))%N eqn:Hp.
    + cbn [forallb]. unfold printable. rewrite Hp. reflexivity.
    + destruct (c <? 65536)%N.
      * apply u_escape_printable.
      * cbn zeta. rewrite forallb_app, !u_escape_printable. reflexivity.
Qed.

Lemma encode_string_printable (s : text) :
  forallb printable (encode_string s) = true.
Proof.
  unfold encode_string. rewrite !forallb_app.
  assert (H : forallb printable (flat_map encode_char s) = true).
  { induction s as [|c s IH]; [reflexivity |].
    cbn [flat_map]. rewrite forallb_app, encode_char_printable, IH. reflexivity. }
  rewrite H. reflexivity.
Qed.

Lemma json_dumps_plain_printable (v : pyval) :
  plain v -> forallb printable (json_dumps v) = true.
Proof.
  destruct v as [ | [|] | | | s | | ]; cbn [plain]; intros H; try contradiction;
    try reflexivity.
  apply encode_string_printable.
Qed.

Lemma flat_object_printable (entries : pydict) :
  Forall (fun kv => plain (snd kv)) entries ->
  forallb printable (json_dumps (PDict entries)) = true.
Proof.
  intros H. rewrite json_dumps_dict. rewrite !forallb_app.
  assert (Hj : forallb printable (join_comma (map entry_text entries)) = true).
  { induction H as [|kv entries Hkv Hrest IH]; [reflexivity |].
    assert (He : forallb printable (entry_text kv) = true).
    { unfold entry_text. rewrite !forallb_app, encode_string_printable,
        json_dumps_plain_printable by exact Hkv. reflexivity. }
    destruct entries as [|kv2 more]; [exact He |].
    change (join_comma (map entry_text (kv :: kv2 :: more)))
      with (entry_text kv ++ lit ", " ++ join_comma (map entry_text (kv2 :: more))).
    rewrite !forallb_app, He, IH. reflexivity. }
  rewrite Hj. reflexivity.
Qed.

Lemma printable_scalar_text (s : text) :
  forallb printable s = true -> scalar_text s.
Proof.
  intros H. apply Forall_forall. intros c Hc.
  rewrite forallb_forall in H. specialize (H c Hc).
  unfold printable in H. apply andb_true_iff in H. destruct H as [_ H].
  apply N.leb_le in H. unfold scalar.
  apply orb_true_iff. left. apply N.ltb_lt. lia.
Qed.

Lemma printable_differs (c k : N) :
  printable c = true -> (k < 32 \/ 126 < k)%N -> (c =? k)%N = false.
Proof.
  unfold printable. intros H Hk. apply andb_true_iff in H.
  destruct H as [H1 H2]. apply N.leb_le in H1, H2. apply N.eqb_neq. lia.
Qed.

Lemma decode_utf8_printable (b : bytes) :
  forallb printable b = true -> decode_utf8 b = Some b.
Proof.
  induction b as [|b0 r IH]; [reflexivity |].
  cbn [forallb]. intros H. apply andb_true_iff in H. destruct H as [H0 Hr].
  cbn [decode_utf8].
  assert (Hlt : (b0 <? 128)%N = true).
  { unfold printable in H0. apply andb_true_iff in H0. destruct H0 as [_ H0].
    apply N.leb_le in H0. apply N.ltb_lt. lia. }
  rewrite Hlt, (IH Hr). reflexivity.
Qed.

(** Bytes of printable ASCII are taken for UTF-8 and decode to
    themselves. *)
Lemma decode_bytes_printable (b : bytes) :
  forallb printable b = true -> decode_bytes b = Some b.
Proof.
  intros H.
  assert (Hd : detect_encoding b = utf_8).
  { unfold detect_encoding. destruct b as [|b0 r]; [reflexivity |].
    cbn [forallb] in H. apply andb_true_iff in H. destruct H as [H0 Hr].
    cbn [startswith].
    rewrite (@printable_differs b0 0 H0), (@printable_differs b0 255 H0),
      (@printable_differs b0 254 H0), (@printable_differs b0 239 H0)
      by ((left; reflexivity) || (right; reflexivity)).
    cbn [andb orb].
    destruct r as [|b1 r]; [reflexivity |].
    cbn [forallb] in Hr. apply andb_true_iff in Hr. destruct Hr as [H1 Hr].
    rewrite (@printable_differs b1 0 H1) by (left; reflexivity).
    destruct r as [|b2 [|b3 r]]; reflexivity. }
  unfold decode_bytes. rewrite Hd. apply decode_utf8_printable. exact H.
Qed.

(** What an answer with a completion carries is that completion. *)
Lemma completion_of_body (c : text) :
  scalar_text c -> completion_of float_repr (completion_body c) = Ok (PStr c).
Proof.
  intros Hc. unfold completion_of, completion_body.
  rewrite decode_bytes_printable
    by (apply flat_object_printable; repeat constructor; exact Hc).
  rewrite json_decode_flat_object.
  - reflexivity.
  - constructor; [| constructor]. split; [| exact Hc].
    cbn [fst]. unfold scalar_text. repeat constructor.
  - repeat constructor; cbn; tauto.
Qed.

Lemma PII_dict_plain_entries (p : PII) :
  scalar_record p -> Forall plain_entry (PII_dict p).
Proof.
  unfold scalar_record, PII_dict. intros H.
  repeat (apply Forall_cons_iff in H; destruct H as [? H]).
  repeat (apply Forall_cons; [split; [apply printable_scalar_text; reflexivity
                                     | assumption] |]).
  constructor.
Qed.

Lemma PII_init_dict (p : PII) : PII_init (PII_dict p) = Ok p.
Proof. destruct p as [[e|] [n|] [u|] [m|] [a|] [s|] [c|]]; reflexivity. Qed.

(** The JSON text of a record parses to that record. *)
Lemma PII_parse_raw_dumps (p : PII) :
  scalar_record p ->
  PII_parse_raw float_repr (PStr (json_dumps (PDict (PII_dict p)))) = Ok p.
Proof.
  intros Hp. unfold PII_parse_raw, json_loads.
  rewrite json_decode_flat_object.
  - cbn [PII_parse_obj]. rewrite json_dumps_dict.
    change (startswith (lit "{" ++ join_comma (map entry_text (PII_dict p)) ++ lit "}")
                       [65279%N]) with false.
    cbv iota. apply PII_init_dict.
  - apply PII_dict_plain_entries. exact Hp.
  - unfold PII_dict, keys. cbn [map fst].
    repeat (apply NoDup_cons; [cbn; intuition discriminate |]). constructor.
Qed.

(** X8. The body of a request can be read back: decoding the body that
    [query] sends for a prompt of scalar values gives the prompt and the
    three fixed sampling parameters, on a platform that writes the float
    0.0 as 0.0.  So the endpoint receives the prompt unchanged, whatever
    quotes, backslashes, control characters or characters outside ASCII
    the sentence holds. *)
Theorem request_body_round_trip (prompt : text) :
  scalar_text prompt ->
  float_repr (lit "0.0") = lit "0.0" ->
  json_loads float_repr (req_body (request_of prompt))
  = Some (request_payload prompt).
Proof.
  intros Hp Hfloat. unfold json_loads, request_of. cbn [req_body].
  rewrite request_payload_decodes by assumption.
  unfold request_payload. rewrite json_dumps_dict. reflexivity.
Qed.

(** X9. The body of a request is printable ASCII for every prompt: each
    character of the sentence outside that range is written as an
    escape. *)
Theorem request_body_is_ascii (prompt : text) :
  forallb printable (req_body (request_of prompt)) = true.
Proof.
  unfold request_of, request_payload. cbn [req_body]. rewrite json_dumps_dict.
  match goal with
  | |- context [join_comma (map entry_text (?e :: ?more))] =>
      change (join_comma (map entry_text (e :: more)))
        with (entry_text e ++ lit ", " ++ join_comma (map entry_text more))
  end.
  unfold entry_text at 1. cbn [fst snd json_dumps].
  rewrite !forallb_app, !encode_string_printable. reflexivity.
Qed.

(** X10. [query] returns the completion of the answer: when the endpoint
    answers the call with a JSON object whose completion is a text of
    scalar values, as [json.dumps] writes it, the result is that text,
    character for character. *)
Theorem query_returns_completion
  (endpoint : nat -> request -> reply) (prompt c : text) (w : world) :
  scalar_text c ->
  endpoint (calls w) (request_of prompt) = Body (completion_body c) ->
  query endpoint float_repr prompt w
  = (Ok (PStr c), after_call (request_of prompt) w).
Proof.
  intros Hc Hb. rewrite query_run, Hb, completion_of_body by exact Hc.
  reflexivity.
Qed.

(** X11. The JSON text of a record parses to the record: for a record
    whose texts hold scalar values, [PII.parse_raw] of the text that
    [json.dumps] writes for its dict gives the record back, absent fields
    included. *)
Theorem PII_text_round_trip (p : PII) :
  scalar_record p ->
  PII_parse_raw float_repr (PStr (json_dumps (PDict (PII_dict p)))) = Ok p.
Proof. exact (@PII_parse_raw_dumps p). Qed.

Lemma responds_record
  (endpoint : nat -> request -> reply) (k : nat) (r : request) (p : PII) :
  scalar_record p ->
  endpoint k r = Body (completion_body (json_dumps (PDict (PII_dict p)))) ->
  validates endpoint float_repr (PII_parse_raw float_repr) k r p.
Proof.
  intros Hp Hb. exists (PStr (json_dumps (PDict (PII_dict p)))). split.
  - exists (completion_body (json_dumps (PDict (PII_dict p)))).
    split; [exact Hb |]. apply completion_of_body.
    apply printable_scalar_text, flat_object_printable. exact Hp.
  - apply PII_parse_raw_dumps. exact Hp.
Qed.

Lemma pii_extraction_record_run
  (endpoint : nat -> request -> reply) (sentence : text) (p : PII) (w : world) :
  scalar_record p ->
  endpoint (calls w) (extraction_request sentence)
  = Body (completion_body (json_dumps (PDict (PII_dict p)))) ->
  pii_extraction endpoint float_repr (PII_parse_raw float_repr) sentence w
  = (Ok (PII_dict p), after_call (extraction_request sentence) w).
Proof.
  intros Hp Hb. unfold pii_extraction. rewrite retry_loop_enter by lia.
  rewrite (@attempt_validates endpoint float_repr (PII_parse_raw float_repr)
             extraction_prompt
             (lit "Extract the PII from the following sentence: " ++ sentence)
             w p).
  - reflexivity.
  - apply responds_record; assumption.
Qed.

(** X12. The extractor with the real parser, end to end: when the model
    answers the first attempt with the JSON text of a record, inside a
    JSON answer, [pii_extraction] returns the dict of exactly that record
    after one remote call, without a delay and without a message. *)
Theorem pii_extraction_reads_record
  (endpoint : nat -> request -> reply) (sentence : text) (p : PII) (w : world) :
  scalar_record p ->
  endpoint (calls w) (extraction_request sentence)
  = Body (completion_body (json_dumps (PDict (PII_dict p)))) ->
  pii_extraction endpoint float_repr (PII_parse_raw float_repr) sentence w
  = (Ok (PII_dict p), after_call (extraction_request sentence) w).
Proof. exact (@pii_extraction_record_run endpoint sentence p w). Qed.

End RoundTrip.

(* ===================================================================== *)
(** ** The interactive driver *)
(* ===================================================================== *)

Lemma sum_Z_app (a b : list Z) : sum_Z (a ++ b) = (sum_Z a + sum_Z b)%Z.
Proof.
  unfold sum_Z. induction a as [|x a IH]; cbn [app fold_right]; [reflexivity |].
  rewrite IH. lia.
Qed.

Section DriverProperties.

Variable endpoint : nat -> request -> reply.
Variable float_repr : text -> text.
Variable parse_raw : pyval -> result PII.
Variable lower_other : text -> nat -> text.
Variable title_other : N -> text.
Variable repr_container : pyval -> text.

Let loop := main_loop endpoint float_repr parse_raw lower_other title_other
                      repr_container.

(** The loop invariant of [main]: the lines read are those of the turns
    made, then perhaps the word that ends the session, and each turn made
    one classification call followed by at most three extraction calls,
    and slept at most 6 seconds. *)
Lemma main_loop_turns (lines : list text) :
  forall (out : list (nat * text)) (w : world),
    let s := snd (loop lines out w) in
    exists (turns : list (text * nat)) (last : list text),
      lines = map fst turns ++ last ++ unread s
      /\ (last = [] \/ exists word, last = [word] /\ lower lower_other word = lit "exit"
                                    /\ fst (loop lines out w) = Quit)
      /\ Forall (fun s => lower lower_other s <> lit "exit") (map fst turns)
      /\ Forall (fun turn => snd turn <= 3) turns
      /\ requests (trace (after s)) = requests (trace w) ++ flat_map turn_requests turns
      /\ calls (after s) = calls w + length (flat_map turn_requests turns)
      /\ (sum_Z (delays (trace (after s)))
          <= sum_Z (delays (trace w)) + 6 * Z.of_nat (length turns))%Z.
Proof.
  induction lines as [|sentence rest IH]; intros out w.
  - exists [], []. cbn [loop main_loop snd fst map app unread after flat_map length].
    unfold loop. cbn [main_loop snd unread after map app flat_map length].
    rewrite app_nil_r.
    split; [reflexivity |]. split; [left; reflexivity |].
    split; [constructor |]. split; [constructor |].
    split; [reflexivity |]. split; [lia |]. cbn. lia.
  - cbn zeta. unfold loop. cbn [main_loop]. fold loop.
    destruct (text_eqb (lower lower_other sentence) (lit "exit")) eqn:Hexit.
    { apply text_eqb_eq in Hexit.
      exists [], [sentence].
      cbn [snd fst unread after map app flat_map length].
      rewrite app_nil_r.
      split; [reflexivity |].
      split; [right; exists sentence; auto |].
      split; [constructor |]. split; [constructor |].
      split; [reflexivity |]. split; [lia |]. cbn. lia. }
    assert (Hne : lower lower_other sentence <> lit "exit").
    { intros H. apply text_eqb_eq in H. congruence. }
    pose proof (pii_detection_run endpoint float_repr sentence w) as Hdet.
    destruct (pii_detection endpoint float_repr sentence w) as [[b|e] w1] eqn:Hd.
    2:{ exists [(sentence, 0)], []. cbn [map fst snd app unread after flat_map
                                          turn_requests repeat length].
        injection Hdet as _ ->. cbn [after_call trace calls].
        rewrite requests_app, delays_app, sum_Z_app. cbn [requests flat_map app].
        split; [reflexivity |]. split; [left; reflexivity |].
        split; [constructor; [assumption | constructor] |].
        split; [constructor; [cbn; lia | constructor] |].
        split; [reflexivity |]. split; [lia |]. cbn. lia. }
    injection Hdet as _ Hw1. subst w1.
    set (w1 := after_call (detection_request sentence) w) in *.
    assert (Hw1r : requests (trace w1)
                   = requests (trace w) ++ [detection_request sentence]).
    { unfold w1, after_call. cbn [trace]. rewrite requests_app. reflexivity. }
    assert (Hw1d : delays (trace w1) = delays (trace w)).
    { unfold w1, after_call. cbn [trace]. rewrite delays_app. cbn.
      apply app_nil_r. }
    assert (Hw1c : calls w1 = S (calls w)) by reflexivity.
    destruct b.
    + pose proof (pii_extraction_cost endpoint float_repr parse_raw sentence w1)
        as [k [n [Hk [Hcalls [Hreq [Hdel [Hsum _]]]]]]].
      destruct (pii_extraction endpoint float_repr parse_raw sentence w1)
        as [[d|e] w2] eqn:He; cbn [snd] in Hcalls, Hreq, Hdel.
      * match goal with
        | |- context [loop rest ?o w2] =>
            destruct (IH o w2) as [turns [last [Hl [Hlast [Hno [Hk3 [Hr [Hc Hs]]]]]]]];
            set (s := loop rest o w2) in *
        end.
        exists ((sentence, k) :: turns), last.
        cbn [map fst snd flat_map length].
        change (turn_requests (sentence, k))
          with (detection_request sentence :: repeat (extraction_request sentence) k).
        split; [rewrite Hl at 1; reflexivity |].
        split; [exact Hlast |].
        split; [constructor; assumption |].
        split; [constructor; [cbn; lia | assumption] |].
        split; [rewrite Hr, Hreq, Hw1r, <- !app_assoc; reflexivity |].
        split; [rewrite Hc, Hcalls, Hw1c, !length_app; cbn [length];
                rewrite repeat_length; lia |].
        rewrite Hdel, Hw1d, sum_Z_app in Hs. lia.
      * exists [(sentence, k)], [].
        cbn [map fst snd app unread after flat_map length].
        change (turn_requests (sentence, k))
          with (detection_request sentence :: repeat (extraction_request sentence) k).
        rewrite app_nil_r.
        split; [reflexivity |]. split; [left; reflexivity |].
        split; [constructor; [assumption | constructor] |].
        split; [constructor; [cbn; lia | constructor] |].
        split; [rewrite Hreq, Hw1r, <- !app_assoc; reflexivity |].
        split; [rewrite Hcalls, Hw1c; cbn [length]; rewrite repeat_length; lia |].
        rewrite Hdel, Hw1d, sum_Z_app. lia.
    + match goal with
      | |- context [loop rest ?o w1] =>
          destruct (IH o w1) as [turns [last [Hl [Hlast [Hno [Hk3 [Hr [Hc Hs]]]]]]]];
          set (s := loop rest o w1) in *
      end.
      exists ((sentence, 0) :: turns), last.
      cbn [map fst snd flat_map length].
      change (turn_requests (sentence, 0)) with [detection_request sentence].
      split; [rewrite Hl at 1; reflexivity |].
      split; [exact Hlast |].
      split; [constructor; assumption |].
      split; [constructor; [cbn; lia | assumption] |].
      split; [rewrite Hr, Hw1r, <- !app_assoc; reflexivity |].
      split; [rewrite Hc, Hw1c, !length_app; cbn [length]; lia |].
      rewrite Hw1d in Hs. lia.
Qed.

Lemma turn_requests_length (turns : list (text * nat)) :
  Forall (fun turn => snd turn <= 3) turns ->
  length (flat_map turn_requests turns) <= 4 * length turns.
Proof.
  induction 1 as [|turn turns Hk _ IH]; [cbn; lia |].
  cbn [flat_map]. rewrite length_app. unfold turn_requests at 1.
  cbn [length]. rewrite repeat_length. lia.
Qed.

(** X13. In every session the remote calls come in turns, one per sentence
    read, in the order of the sentences: the classification of the
    sentence first, then at most three extraction attempts for the same
    sentence; a sentence is read only when the turn before it is over, and
    no call is made for the word that ends the session or for the lines
    after it. *)
Theorem main_calls_come_in_turns (lines : list text) (w : world) :
  let s := snd (main endpoint float_repr parse_raw lower_other title_other
                     repr_container lines w) in
  exists (turns : list (text * nat)) (last : list text),
    lines = map fst turns ++ last ++ unread s
    /\ (last = [] \/ exists word, last = [word] /\ lower lower_other word = lit "exit")
    /\ Forall (fun turn => snd turn <= 3) turns
    /\ requests (trace (after s)) = requests (trace w) ++ flat_map turn_requests turns.
Proof.
  destruct (main_loop_turns lines [] w)
    as [turns [last [Hl [Hlast [_ [Hk [Hr _]]]]]]].
  exists turns, last. unfold main. fold loop.
  split; [exact Hl |]. split; [| split; [exact Hk | exact Hr]].
  destruct Hlast as [-> | [word [-> [Hw _]]]]; [left; reflexivity |].
  right. exists word. split; [reflexivity | exact Hw].
Qed.

(** X14. The cost of a session is bounded by the number of lines it reads:
    at most four remote calls and at most 6 seconds of sleep for each. *)
Theorem main_budget (lines : list text) (w : world) :
  let s := snd (main endpoint float_repr parse_raw lower_other title_other
                     repr_container lines w) in
  let read := length lines - length (unread s) in
  length (unread s) <= length lines
  /\ calls (after s) <= calls w + 4 * read
  /\ (sum_Z (delays (trace (after s)))
      <= sum_Z (delays (trace w)) + 6 * Z.of_nat read)%Z.
Proof.
  destruct (main_loop_turns lines [] w)
    as [turns [last [Hl [_ [_ [Hk [_ [Hc Hs]]]]]]]].
  unfold main. fold loop. cbn zeta.
  set (s := snd (loop lines [] w)) in *.
  assert (Hlen : length lines = length turns + length last + length (unread s)).
  { rewrite Hl at 1. rewrite !length_app, length_map. lia. }
  pose proof (turn_requests_length Hk) as Hq.
  split; [lia |]. split; [lia |]. lia.
Qed.

(** How a session ends and what it leaves unread. *)
Lemma main_loop_ending (lines : list text) :
  forall (out : list (nat * text)) (w : world),
    let run := loop lines out w in
    match fst run with
    | Quit =>
        exists before word,
          lines = before ++ word :: unread (snd run)
          /\ lower lower_other word = lit "exit"
          /\ Forall (fun s => lower lower_other s <> lit "exit") before
    | EndOfInput =>
        unread (snd run) = []
        /\ Forall (fun s => lower lower_other s <> lit "exit") lines
    | Failed e =>
        is_ValidationError e = false
        /\ exists before sentence,
             lines = before ++ sentence :: unread (snd run)
             /\ Forall (fun s => lower lower_other s <> lit "exit")
                       (before ++ [sentence])
    end.
Proof.
  induction lines as [|sentence rest IH]; intros out w.
  - cbn. split; [reflexivity | constructor].
  - cbn zeta. unfold loop. cbn [main_loop]. fold loop.
    destruct (text_eqb (lower lower_other sentence) (lit "exit")) eqn:Hexit.
    { apply text_eqb_eq in Hexit. cbn [fst snd unread].
      exists [], sentence. repeat split; [exact Hexit | constructor]. }
    assert (Hne : lower lower_other sentence <> lit "exit").
    { intros H. apply text_eqb_eq in H. congruence. }
    assert (Hstop : Forall (fun s => lower lower_other s <> lit "exit")
                           ([] ++ [sentence]))
      by (cbn [app]; constructor; [exact Hne | constructor]).
    assert (Hgo : forall o w',
              match fst (loop rest o w') with
              | Quit =>
                  exists before word,
                    sentence :: rest = before ++ word :: unread (snd (loop rest o w'))
                    /\ lower lower_other word = lit "exit"
                    /\ Forall (fun s => lower lower_other s <> lit "exit") before
              | EndOfInput =>
                  unread (snd (loop rest o w')) = []
                  /\ Forall (fun s => lower lower_other s <> lit "exit")
                            (sentence :: rest)
              | Failed e =>
                  is_ValidationError e = false
                  /\ exists before sentence0,
                       sentence :: rest
                       = before ++ sentence0 :: unread (snd (loop rest o w'))
                       /\ Forall (fun s => lower lower_other s <> lit "exit")
                                 (before ++ [sentence0])
              end).
    { intros o w'. specialize (IH o w'). cbn zeta in IH.
      destruct (fst (loop rest o w')).
      - destruct IH as [before [word [Hl [Hw Hb]]]].
        exists (sentence :: before), word.
        split; [rewrite Hl at 1; reflexivity |].
        split; [exact Hw | constructor; assumption].
      - destruct IH as [He [before [s0 [Hl Hb]]]]. split; [exact He |].
        exists (sentence :: before), s0.
        split; [rewrite Hl at 1; reflexivity | constructor; assumption].
      - destruct IH as [Hu Hb]. split; [exact Hu | constructor; assumption]. }
    pose proof (pii_detection_run endpoint float_repr sentence w) as Hdet.
    destruct (pii_detection endpoint float_repr sentence w) as [[b|e] w1] eqn:Hd.
    2:{ cbn [fst snd unread]. split.
        - injection Hdet as Hres _.
          destruct (endpoint (calls w) (detection_request sentence)) as [body|d];
            [|inversion Hres; reflexivity].
          destruct (completion_of float_repr body) as [c|e'] eqn:Hc.
          + destruct c; inversion Hres; reflexivity.
          + injection Hres as ->. exact (completion_of_raises _ _ Hc).
        - exists [], sentence. split; [reflexivity | exact Hstop]. }
    destruct b; [| apply Hgo].
    destruct (pii_extraction_cases endpoint float_repr parse_raw sentence w1)
      as [failures [_ Hcases]]. cbn zeta in Hcases.
    destruct (pii_extraction endpoint float_repr parse_raw sentence w1)
      as [[d|e] w2] eqn:He; [apply Hgo |].
    cbn [fst snd unread]. split.
    + destruct Hcases as [[_ Hrun] | [[_ [p [_ Hrun]]] | [_ [e' [[Hv _] Hrun]]]]];
        inversion Hrun; subst; exact Hv.
    + exists [], sentence. split; [reflexivity | exact Hstop].
Qed.

(** X15. How a session ends.  [main] returns only when a line read is the
    word exit in some letter case, and the lines after it stay unread; no
    earlier line was that word.  Otherwise the session ends because the
    input is over, every line having been read, or because a turn raised:
    the error is never a validation error, [main] does not catch it, and
    the lines after the sentence of that turn stay unread. *)
Theorem main_ending (lines : list text) (w : world) :
  let run := main endpoint float_repr parse_raw lower_other title_other
                  repr_container lines w in
  match fst run with
  | Quit =>
      exists before word,
        lines = before ++ word :: unread (snd run)
        /\ lower lower_other word = lit "exit"
        /\ Forall (fun s => lower lower_other s <> lit "exit") before
  | EndOfInput =>
      unread (snd run) = []
      /\ Forall (fun s => lower lower_other s <> lit "exit") lines
  | Failed e =>
      is_ValidationError e = false
      /\ exists before sentence,
           lines = before ++ sentence :: unread (snd run)
           /\ Forall (fun s => lower lower_other s <> lit "exit")
                     (before ++ [sentence])
  end.
Proof. exact (main_loop_ending lines [] w). Qed.

Lemma lower_from_ascii (s rest : text) (i : nat) :
  Forall (fun c => (c <? 128)%N = true) rest ->
  lower_from lower_other s i rest = map ascii_lower rest.
Proof.
  intros H. revert i. induction H as [|c r Hc _ IH]; intros i; [reflexivity |].
  cbn [lower_from map]. rewrite Hc, IH. reflexivity.
Qed.

(** X16. The word exit ends the session in any letter case (exit, EXIT,
    Exit, ...): when the first line is such a word [main] returns at once,
    having written the prompt and nothing else and made no remote call,
    and the lines after it are not read. *)
Theorem main_exit_word (word : text) (rest : list text) (w : world) :
  Forall (fun c => (c <? 128)%N = true) word ->
  map ascii_lower word = lit "exit" ->
  main endpoint float_repr parse_raw lower_other title_other repr_container
       (word :: rest) w
  = (Quit, {| unread := rest;
              screen := [(length (trace w), input_prompt)];
              after := w |}).
Proof.
  intros Hascii Hword. unfold main. cbn [main_loop].
  unfold lower. rewrite lower_from_ascii by exact Hascii.
  rewrite Hword, text_eqb_refl. reflexivity.
Qed.

Lemma main_loop_negative (lines : list text) :
  (forall k r, exists c, responds endpoint float_repr k r (PStr c)
                         /\ startswith (strip c) (lit "True") = false) ->
  forall (out : list (nat * text)) (w : world),
    let run := loop lines out w in
    exists sentences last,
      lines = sentences ++ last ++ unread (snd run)
      /\ ((last = [] /\ fst run = EndOfInput /\ unread (snd run) = [])
          \/ (exists word, last = [word] /\ fst run = Quit))
      /\ requests (trace (after (snd run)))
         = requests (trace w) ++ map detection_request sentences
      /\ delays (trace (after (snd run))) = delays (trace w)
      /\ written (snd run)
         = map snd out ++ flat_map negative_turn sentences ++ [input_prompt].
Proof.
  intros Hneg. induction lines as [|sentence rest IH]; intros out w.
  - exists [], []. cbn zeta. unfold loop. cbn [main_loop fst snd unread after].
    unfold written. cbn [screen]. rewrite map_app. cbn. rewrite !app_nil_r.
    split; [reflexivity |]. split; [left; auto |]. auto.
  - cbn zeta. unfold loop. cbn [main_loop]. fold loop.
    destruct (text_eqb (lower lower_other sentence) (lit "exit")) eqn:Hexit.
    { exists [], [sentence]. cbn [fst snd unread after app map flat_map].
      unfold written. cbn [screen]. rewrite map_app. cbn [map snd].
      rewrite !app_nil_r.
      split; [reflexivity |]. split; [right; exists sentence; auto |]. auto. }
    rewrite pii_detection_run.
    destruct (Hneg (calls w) (detection_request sentence)) as [c [[b [Hb Hc]] Hv]].
    rewrite Hb, Hc, Hv.
    match goal with
    | |- context [loop rest ?o ?w1] =>
        destruct (IH o w1) as [sentences [last [Hl [Hlast [Hr [Hd Hs]]]]]];
        set (run := loop rest o w1) in *
    end.
    exists (sentence :: sentences), last.
    split; [rewrite Hl at 1; reflexivity |].
    split; [exact Hlast |].
    split; [rewrite Hr; cbn [after_call trace map]; rewrite requests_app,
            <- app_assoc; reflexivity |].
    split; [rewrite Hd; cbn [after_call trace]; rewrite delays_app; cbn;
            apply app_nil_r |].
    rewrite Hs. unfold print_line. rewrite !map_app. cbn [map snd flat_map].
    unfold negative_turn. rewrite <- !app_assoc. reflexivity.
Qed.

(** X17. While the verdicts are negative the extractor is never called:
    with an endpoint whose every completion is a text that does not start
    with True once stripped, a session makes exactly one classification
    call per sentence, never sleeps and never fails; for each sentence it
    writes the prompt, the sentence, the verdict False and the separator;
    it ends at the word exit or at the end of the input. *)
Theorem main_negative_session (lines : list text) (w : world) :
  (forall k r, exists c, responds endpoint float_repr k r (PStr c)
                         /\ startswith (strip c) (lit "True") = false) ->
  let run := main endpoint float_repr parse_raw lower_other title_other
                  repr_container lines w in
  exists sentences last,
    lines = sentences ++ last ++ unread (snd run)
    /\ ((last = [] /\ fst run = EndOfInput /\ unread (snd run) = [])
        \/ (exists word, last = [word] /\ fst run = Quit))
    /\ requests (trace (after (snd run)))
       = requests (trace w) ++ map detection_request sentences
    /\ delays (trace (after (snd run))) = delays (trace w)
    /\ written (snd run) = flat_map negative_turn sentences ++ [input_prompt].
Proof.
  intros Hneg. exact (main_loop_negative lines Hneg [] w).
Qed.

Lemma item_lines_record (t : list event) (p : PII) :
  map snd (item_lines lower_other title_other repr_container t (PII_dict p))
  = [item_line "Explanation" (explanation p);
     item_line "Name" (name p);
     item_line "Number" (number p);
     item_line "Email" (email p);
     item_line "Address" (address p);
     item_line "Social_security_number" (social_security_number p);
     item_line "Credit_card_number" (credit_card_number p)].
Proof. destruct p as [[e|] [n|] [u|] [m|] [a|] [s|] [c|]]; reflexivity. Qed.

(** X18. What the listing of a result shows, on every platform: for a
    record, seven lines in the order of the fields, each with the field
    name with a capital first letter and the value, or None for a field
    that is absent; for the failure marker, the single line Error: Max
    retries reached. *)
Theorem listing_of_results (t : list event) (p : PII) :
  map snd (item_lines lower_other title_other repr_container t (PII_dict p))
  = [item_line "Explanation" (explanation p);
     item_line "Name" (name p);
     item_line "Number" (number p);
     item_line "Email" (email p);
     item_line "Address" (address p);
     item_line "Social_security_number" (social_security_number p);
     item_line "Credit_card_number" (credit_card_number p)]
  /\ map snd (item_lines lower_other title_other repr_container t error_dict)
     = [item_line "Error" (Some (lit "Max retries reached"))].
Proof. split; [apply item_lines_record | reflexivity]. Qed.

Section Transcript.

Variable verdict : text -> text.
Variable record_of : text -> PII.

Hypothesis verdict_scalar : forall s, scalar_text (verdict s).
Hypothesis record_scalar : forall s, scalar_record (record_of s).
Hypothesis classifies :
  forall k s, endpoint k (detection_request s) = Body (completion_body (verdict s)).
Hypothesis extracts :
  forall k s, endpoint k (extraction_request s)
              = Body (completion_body (json_dumps (PDict (PII_dict (record_of s))))).

Lemma main_loop_transcript (lines : list text) :
  forall (out : list (nat * text)) (w : world),
    let run := main_loop endpoint float_repr (PII_parse_raw float_repr)
                         lower_other title_other repr_container lines out w in
    exists sentences last,
      lines = sentences ++ last ++ unread (snd run)
      /\ ((last = [] /\ fst run = EndOfInput /\ unread (snd run) = [])
          \/ (exists word, last = [word] /\ fst run = Quit))
      /\ requests (trace (after (snd run)))
         = requests (trace w) ++ flat_map (turn_calls verdict) sentences
      /\ delays (trace (after (snd run))) = delays (trace w)
      /\ written (snd run)
         = map snd out ++ flat_map (turn_transcript verdict record_of) sentences
           ++ [input_prompt].
Proof.
  induction lines as [|sentence rest IH]; intros out w.
  - exists [], []. cbn zeta. cbn [main_loop fst snd unread after].
    unfold written. cbn [screen]. rewrite map_app. cbn. rewrite !app_nil_r.
    split; [reflexivity |]. split; [left; auto |]. auto.
  - cbn zeta. cbn [main_loop].
    destruct (text_eqb (lower lower_other sentence) (lit "exit")) eqn:Hexit.
    { exists [], [sentence]. cbn [fst snd unread after app map flat_map].
      unfold written. cbn [screen]. rewrite map_app. cbn [map snd].
      rewrite !app_nil_r.
      split; [reflexivity |]. split; [right; exists sentence; auto |]. auto. }
    rewrite pii_detection_run, classifies,
      (completion_of_body float_repr (verdict_scalar sentence)).
    destruct (startswith (strip (verdict sentence)) (lit "True")) eqn:Hv.
    + rewrite (pii_extraction_record_run float_repr endpoint sentence
                 (after_call (detection_request sentence) w)
                 (record_scalar sentence) (extracts _ sentence)).
      match goal with
      | |- context [main_loop _ _ _ _ _ _ rest ?o ?w2] =>
          destruct (IH o w2) as [sentences [last [Hl [Hlast [Hr [Hd Hs]]]]]];
          set (run := main_loop endpoint float_repr (PII_parse_raw float_repr)
                                lower_other title_other repr_container rest o w2) in *
      end.
      exists (sentence :: sentences), last.
      split; [rewrite Hl at 1; reflexivity |].
      split; [exact Hlast |].
      split; [rewrite Hr; cbn [after_call trace map flat_map];
              unfold turn_calls at 2; rewrite Hv, !requests_app, <- !app_assoc;
              reflexivity |].
      split; [rewrite Hd; cbn [after_call trace]; rewrite !delays_app; cbn;
              rewrite !app_nil_r; reflexivity |].
      rewrite Hs. unfold print_line. rewrite !map_app, item_lines_record.
      cbn [map snd flat_map]. unfold turn_transcript at 2. rewrite Hv.
      unfold positive_turn. rewrite <- !app_assoc. reflexivity.
    + match goal with
      | |- context [main_loop _ _ _ _ _ _ rest ?o ?w1] =>
          destruct (IH o w1) as [sentences [last [Hl [Hlast [Hr [Hd Hs]]]]]];
          set (run := main_loop endpoint float_repr (PII_parse_raw float_repr)
                                lower_other title_other repr_container rest o w1) in *
      end.
      exists (sentence :: sentences), last.
      split; [rewrite Hl at 1; reflexivity |].
      split; [exact Hlast |].
      split; [rewrite Hr; cbn [after_call trace map flat_map];
              unfold turn_calls at 2; rewrite Hv, requests_app, <- !app_assoc;
              reflexivity |].
      split; [rewrite Hd; cbn [after_call trace]; rewrite delays_app; cbn;
              apply app_nil_r |].
      rewrite Hs. unfold print_line. rewrite !map_app. cbn [map snd flat_map].
      unfold turn_transcript at 2. rewrite Hv.
      unfold negative_turn. rewrite <- !app_assoc. reflexivity.
Qed.

End Transcript.

(** X19. The transcript of a session with a model that follows its
    instructions.  Let the endpoint answer the classification of each
    sentence with a completion [verdict s] and its extraction with the
    JSON text of a record [record_of s].  Then the session, with the real
    parser, never fails and never sleeps; it ends at the word exit or at
    the end of the input; for each sentence before that it sends the
    classification request and, exactly when the stripped verdict starts
    with True, one extraction request; and it writes, for each sentence,
    the prompt, the sentence, the verdict and then either the seven lines
    of the record or nothing, and the separator. *)
Theorem main_session_transcript
  (verdict : text -> text) (record_of : text -> PII) (lines : list text) (w : world) :
  (forall s, scalar_text (verdict s)) ->
  (forall s, scalar_record (record_of s)) ->
  (forall k s, endpoint k (detection_request s) = Body (completion_body (verdict s))) ->
  (forall k s, endpoint k (extraction_request s)
               = Body (completion_body (json_dumps (PDict (PII_dict (record_of s)))))) ->
  let run := main endpoint float_repr (PII_parse_raw float_repr)
                  lower_other title_other repr_container lines w in
  exists sentences last,
    lines = sentences ++ last ++ unread (snd run)
    /\ ((last = [] /\ fst run = EndOfInput /\ unread (snd run) = [])
        \/ (exists word, last = [word] /\ fst run = Quit))
    /\ requests (trace (after (snd run)))
       = requests (trace w) ++ flat_map (turn_calls verdict) sentences
    /\ delays (trace (after (snd run))) = delays (trace w)
    /\ written (snd run)
       = flat_map (turn_transcript verdict record_of) sentences ++ [input_prompt].
Proof.
  intros Hv Hr Hc He.
  exact (@main_loop_transcript verdict record_of Hv Hr Hc He lines [] w).
Qed.

End DriverProperties.

(* ===================================================================== *)
(** ** The properties above on the scenarios *)
(* ===================================================================== *)

(** The verdict on True is the verdict on True between a space and a line
    feed. *)
Lemma pii_detection_ignores_surroundings_witness :
  responds (answering (lit "True")) literal_repr 0
           (detection_request ssn_sentence) (PStr (lit "True"))
  /\ responds (answering (lit " True" ++ nl)) literal_repr 0
              (detection_request ssn_sentence) (PStr (lit " True" ++ nl))
  /\ fst (pii_detection (answering (lit " True" ++ nl)) literal_repr ssn_sentence fresh)
     = fst (pii_detection (answering (lit "True")) literal_repr ssn_sentence fresh).
Proof.
  assert (H1 : responds (answering (lit "True")) literal_repr (calls fresh)
                        (detection_request ssn_sentence) (PStr (lit "True"))).
  { eexists. split; [reflexivity | vm_compute; reflexivity]. }
  assert (H2 : responds (answering (lit " True" ++ nl)) literal_repr (calls fresh)
                        (detection_request ssn_sentence) (PStr (lit " True" ++ nl))).
  { eexists. split; [reflexivity | vm_compute; reflexivity]. }
  split; [exact H1 |]. split; [exact H2 |].
  destruct (@pii_detection_ignores_surroundings _ _ literal_repr ssn_sentence
              ssn_sentence fresh fresh _ _ H1 H2) as [Hspace _].
  apply Hspace. exists (lit " "), nl.
  split; [repeat constructor |]. split; [repeat constructor | reflexivity].
Defined.

(** Three answers without a completion. *)
Lemma completion_that_is_not_text_witness :
  (forall k r, calls fresh <= k < calls fresh + 3 ->
               exists c, responds silent literal_repr k r c
                         /\ forall s, c <> PStr s)
  /\ fst (pii_detection silent literal_repr ssn_sentence fresh) = Raise AttributeError
  /\ fst (pii_extraction silent literal_repr (PII_parse_raw literal_repr)
                         ssn_sentence fresh) = Ok error_dict.
Proof.
  assert (H : forall k r, calls fresh <= k < calls fresh + 3 ->
                exists c, responds silent literal_repr k r c
                          /\ forall s, c <> PStr s).
  { intros k r _. exists PNone. split; [| discriminate].
    eexists. split; [reflexivity | vm_compute; reflexivity]. }
  split; [exact H |].
  destruct (@completion_that_is_not_text silent literal_repr ssn_sentence fresh H)
    as [Hd [_ [He _]]].
  split; [exact Hd | exact He].
Defined.


(** The prompt with a quoted word comes back from the body. *)
Lemma request_body_round_trip_witness :
  scalar_text quoted_prompt
  /\ literal_repr (lit "0.0") = lit "0.0"
  /\ json_loads literal_repr (req_body (request_of quoted_prompt))
     = Some (request_payload quoted_prompt).
Proof.
  assert (H : scalar_text quoted_prompt) by (repeat constructor).
  split; [exact H |]. split; [reflexivity |].
  exact (@request_body_round_trip literal_repr quoted_prompt H eq_refl).
Defined.

(** The completion True comes back from [query]. *)
Lemma query_returns_completion_witness :
  scalar_text (lit "True")
  /\ answering (lit "True") (calls fresh) (request_of quoted_prompt)
     = Body (completion_body (lit "True"))
  /\ query (answering (lit "True")) literal_repr quoted_prompt fresh
     = (Ok (PStr (lit "True")), after_call (request_of quoted_prompt) fresh).
Proof.
  assert (H : scalar_text (lit "True")) by (repeat constructor).
  split; [exact H |]. split; [reflexivity |].
  exact (@query_returns_completion literal_repr (answering (lit "True"))
           quoted_prompt (lit "True") fresh H eq_refl).
Defined.

Lemma email_record_scalar : scalar_record email_record.
Proof. repeat constructor. Qed.

(** The record of the email example comes back from its JSON text. *)
Lemma PII_text_round_trip_witness :
  scalar_record email_record
  /\ PII_parse_raw literal_repr (PStr email_record_text) = Ok email_record.
Proof.
  split; [exact email_record_scalar |].
  exact (@PII_text_round_trip literal_repr email_record email_record_scalar).
Defined.

(** The model answers with the JSON text of the email record. *)
Lemma pii_extraction_reads_record_witness :
  scalar_record email_record
  /\ answering email_record_text (calls fresh) (extraction_request ssn_sentence)
     = Body (completion_body email_record_text)
  /\ pii_extraction (answering email_record_text) literal_repr
                    (PII_parse_raw literal_repr) ssn_sentence fresh
     = (Ok (PII_dict email_record), after_call (extraction_request ssn_sentence) fresh).
Proof.
  split; [exact email_record_scalar |]. split; [reflexivity |].
  exact (@pii_extraction_reads_record literal_repr (answering email_record_text)
           ssn_sentence email_record fresh email_record_scalar eq_refl).
Defined.

(** The word EXIT in capitals, before a sentence that is never read. *)
Lemma main_exit_word_witness :
  Forall (fun c => (c <? 128)%N = true) (lit "EXIT")
  /\ map ascii_lower (lit "EXIT") = lit "exit"
  /\ main unreachable literal_repr (PII_parse_raw literal_repr)
          unchanged_lower unchanged_title no_container
          [lit "EXIT"; ssn_sentence] fresh
     = (Quit, {| unread := [ssn_sentence];
                 screen := [(0, input_prompt)];
                 after := fresh |}).
Proof.
  assert (H : Forall (fun c => (c <? 128)%N = true) (lit "EXIT"))
    by (repeat constructor).
  split; [exact H |]. split; [reflexivity |].
  exact (@main_exit_word unreachable literal_repr (PII_parse_raw literal_repr)
           unchanged_lower unchanged_title no_container
           (lit "EXIT") [ssn_sentence] fresh H eq_refl).
Defined.

(** A session with a model that always answers False. *)
Lemma main_negative_session_witness :
  (forall k r, exists c, responds (answering (lit "False")) literal_repr k r (PStr c)
                         /\ startswith (strip c) (lit "True") = false)
  /\ delays (trace (after (snd (main (answering (lit "False")) literal_repr
                                     (PII_parse_raw literal_repr)
                                     unchanged_lower unchanged_title no_container
                                     [ssn_sentence; lit "exit"] fresh)))) = [].
Proof.
  assert (H : forall k r,
            exists c, responds (answering (lit "False")) literal_repr k r (PStr c)
                      /\ startswith (strip c) (lit "True") = false).
  { intros k r. exists (lit "False"). split; [| reflexivity].
    eexists. split; [reflexivity | vm_compute; reflexivity]. }
  split; [exact H |].
  destruct (@main_negative_session (answering (lit "False")) literal_repr
              (PII_parse_raw literal_repr) unchanged_lower unchanged_title
              no_container [ssn_sentence; lit "exit"] fresh H)
    as [sentences [last [_ [_ [_ [Hd _]]]]]].
  exact Hd.
Defined.

(** A session with a model that answers True and the email record. *)
Lemma main_session_transcript_witness :
  (forall s : text, scalar_text (lit "True"))
  /\ (forall s : text, scalar_record email_record)
  /\ (forall k s, assistant (lit "True") email_record k (detection_request s)
                  = Body (completion_body (lit "True")))
  /\ (forall k s, assistant (lit "True") email_record k (extraction_request s)
                  = Body (completion_body (json_dumps (PDict (PII_dict email_record)))))
  /\ delays (trace (after (snd (main (assistant (lit "True") email_record)
                                     literal_repr (PII_parse_raw literal_repr)
                                     unchanged_lower unchanged_title no_container
                                     [ssn_sentence; lit "exit"] fresh)))) = [].
Proof.
  assert (H1 : forall s : text, scalar_text (lit "True"))
    by (intros _; repeat constructor).
  assert (H2 : forall s : text, scalar_record email_record)
    by (intros _; exact email_record_scalar).
  assert (H3 : forall k s, assistant (lit "True") email_record k (detection_request s)
                           = Body (completion_body (lit "True")))
    by (intros k s; reflexivity).
  assert (H4 : forall k s, assistant (lit "True") email_record k (extraction_request s)
                           = Body (completion_body
                                     (json_dumps (PDict (PII_dict email_record)))))
    by (intros k s; reflexivity).
  split; [exact H1 |]. split; [exact H2 |]. split; [exact H3 |]. split; [exact H4 |].
  destruct (@main_session_transcript (assistant (lit "True") email_record) literal_repr
              unchanged_lower unchanged_title no_container
              (fun _ => lit "True") (fun _ => email_record)
              [ssn_sentence; lit "exit"] fresh H1 H2 H3 H4)
    as [sentences [last [_ [_ [_ [Hd _]]]]]].
  exact Hd.
Defined.
